(** * localdns: the DNS responder of [app/main.go]

    A shallow embedding of [createResponse], [parseDomainName],
    [parseQuestion] and the decoding part of [HandleDNSPacket], together
    with the properties of the wire codec that hold of them.

    Go values are modelled as follows.
    - [[]byte] is [list byte]; a slice made by [make([]byte, n)] has
      capacity [n], so its length stands for its capacity as well.
    - [int] is a 64-bit two's complement integer: a [Z] on which every
      addition is followed by [wrap_int].  [uint16] is a [Z] below 2^16.
    - [string] is [string]; [string(bs)] is [string_of_list_byte bs].
    - a run-time panic (index or slice bounds out of range) is the
      [Panic] case of [go]; an [error] result is the [Err] case of [result].
    - the unbounded [for] loop of [parseDomainName] runs on fuel and
      answers [None] when the fuel is used up. *)

From Stdlib Require Import ZArith Strings.String Strings.Byte Lia Bool.
From stdpp Require Import base option list.

Open Scope Z_scope.

(** ** The Go run time *)

Module Go.

Inductive panic : Type :=
| index_out_of_range (i len : Z)
| slice_bounds_out_of_range (lo hi cap : Z).

(** The outcome of running a Go function: it returns or it panics. *)
Inductive go (A : Type) : Type :=
| Return (a : A)
| Panic (p : panic).
Arguments Return {A} a.
Arguments Panic {A} p.

(** A Go [(value, error)] result: with a non-nil error the source always
    hands back zero values next to it, so only the message is kept. *)
Inductive result (A : Type) : Type :=
| Ok (a : A)
| Err (msg : string).
Arguments Ok {A} a.
Arguments Err {A} msg.

#[export] Instance go_ret : MRet go := @Return.
#[export] Instance go_bind : MBind go := fun A B f m =>
  match m with
  | Return a => f a
  | Panic p => Panic p
  end.

Definition int_min : Z := - 2 ^ 63.
Definition int_max : Z := 2 ^ 63 - 1.

(** Two's complement wrap-around of [int]. *)
Definition wrap_int (x : Z) : Z := (x + 2 ^ 63) mod 2 ^ 64 - 2 ^ 63.

Definition int_add (a b : Z) : Z := wrap_int (a + b).

Definition len (s : list byte) : Z := Z.of_nat (length s).

(** [int(b)] and [uint16(b)] of a byte. *)
Definition Z_of_byte (b : byte) : Z := Z.of_N (Byte.to_N b).

(** [byte(z)]: conversion to [uint8] keeps the low 8 bits. *)
Definition byte_of_Z (z : Z) : byte :=
  default x00 (Byte.of_N (Z.to_N (z mod 256))).

(** [a | b] on bytes. *)
Definition byte_or (a b : byte) : byte :=
  byte_of_Z (Z.lor (Z_of_byte a) (Z_of_byte b)).

(** [uint16(hi)<<8 | uint16(lo)]; the shift is taken modulo 2^16. *)
Definition uint16_be (hi lo : byte) : Z :=
  Z.lor (Z.land (Z.shiftl (Z_of_byte hi) 8) 65535) (Z_of_byte lo).

(** [s[i]] as an expression. *)
Definition index (s : list byte) (i : Z) : go byte :=
  if (0 <=? i) && (i <? len s)
  then match s !! Z.to_nat i with
       | Some b => Return b
       | None => Panic (index_out_of_range i (len s))
       end
  else Panic (index_out_of_range i (len s)).

(** [s[i] = v]. *)
Definition store (s : list byte) (i : Z) (v : byte) : go (list byte) :=
  if (0 <=? i) && (i <? len s)
  then Return (<[Z.to_nat i := v]> s)
  else Panic (index_out_of_range i (len s)).

(** [s[lo:hi]] read as a value. *)
Definition slice (s : list byte) (lo hi : Z) : go (list byte) :=
  if (0 <=? lo) && (lo <=? hi) && (hi <=? len s)
  then Return (take (Z.to_nat (hi - lo)) (drop (Z.to_nat lo) s))
  else Panic (slice_bounds_out_of_range lo hi (len s)).

(** Overwrite [dst] from position [at] on with the elements of [src]. *)
Fixpoint overwrite (dst : list byte) (at_ : nat) (src : list byte) : list byte :=
  match src with
  | [] => dst
  | b :: src' => overwrite (<[at_ := b]> dst) (S at_) src'
  end.

(** [copy(s[lo:hi], src)]: the slice shares the array of [s], and [copy]
    moves [min(hi-lo, len(src))] elements. *)
Definition copy_to_slice (s : list byte) (lo hi : Z) (src : list byte)
  : go (list byte) :=
  if (0 <=? lo) && (lo <=? hi) && (hi <=? len s)
  then Return (overwrite s (Z.to_nat lo) (take (Z.to_nat (hi - lo)) src))
  else Panic (slice_bounds_out_of_range lo hi (len s)).

(** [make([]byte, n)]: [n] zero bytes. *)
Definition make (n : Z) : list byte := replicate (Z.to_nat n) x00.

(** [copy(dst, src)] *)
Definition copy (dst src : list byte) : list byte :=
  overwrite dst 0 (take (length dst) src).

(** [[]byte("...")] *)
Definition bytes (s : string) : list byte := list_byte_of_string s.

End Go.
Import Go.

(** ** [createResponse] *)

Definition createResponse (query : list byte) : go (list byte) :=
  let response := make (len query) in
  let response := copy response query in
  b2 ← index response 2;
  response ← store response 2 (byte_or b2 x80);
  response ← store response 4 x00;
  response ← store response 5 x01;
  let offset := 12 in
  response ← store response offset x0c;
  response ← copy_to_slice response (int_add offset 1) (int_add offset 13)
               (bytes "localdns");
  let offset := int_add offset 13 in
  response ← store response offset x02;
  response ← copy_to_slice response (int_add offset 1) (int_add offset 3)
               (bytes "io");
  let offset := int_add offset 3 in
  response ← store response offset x00;
  let offset := int_add offset 1 in
  response ← store response offset x00;
  response ← store response (int_add offset 1) x01;
  let offset := int_add offset 2 in
  response ← store response offset x00;
  response ← store response (int_add offset 1) x01;
  Return response.

(** ** [parseDomainName] *)

(** The variables of the loop. *)
Record loop_state : Type := LoopState {
  pos : Z;
  domain : string;
  bytesRead : Z
}.

(** What one pass through the body of the [for] does. *)
Inductive step : Type :=
| Continue (s : loop_state)
| Break (s : loop_state)
| Fail (msg : string).

Definition loop_body (packet : list byte) (s : loop_state) : go step :=
  if pos s >=? len packet then Return (Fail "incomplete domain name")
  else
    b ← index packet (pos s);
    let length := Z_of_byte b in
    if length =? 0
    then Return (Break (LoopState (pos s) (domain s) (int_add (bytesRead s) 1)))
    else
      let pos1 := int_add (pos s) 1 in
      let read1 := int_add (bytesRead s) 1 in
      if int_add pos1 length >? len packet then Return (Fail "incomplete label")
      else
        let domain1 :=
          if String.eqb (domain s) "" then domain s
          else (domain s ++ ".")%string in
        label ← slice packet pos1 (int_add pos1 length);
        Return (Continue (LoopState (int_add pos1 length)
                            (domain1 ++ string_of_list_byte label)%string
                            (int_add read1 length))).

Fixpoint parse_loop (fuel : nat) (packet : list byte) (s : loop_state)
  : option (go (result (string * Z))) :=
  match fuel with
  | O => None
  | S fuel' =>
      match loop_body packet s with
      | Panic p => Some (Panic p)
      | Return (Fail msg) => Some (Return (Err msg))
      | Return (Break s') => Some (Return (Ok (domain s', bytesRead s')))
      | Return (Continue s') => parse_loop fuel' packet s'
      end
  end.

(** The loop is given [len(packet) + 1] passes; [parse_loop_returns] and
    [parse_loop_mono] show that this is enough and that no larger number
    changes the result. *)
Definition parseDomainName (packet : list byte) (offset : Z)
  : option (go (result (string * Z))) :=
  if offset >=? len packet
  then Some (Return (Err "offset beyond packet length"))
  else parse_loop (S (length packet)) packet (LoopState offset "" 0).

(** ** [parseQuestion] *)

Definition parseQuestion (packet : list byte) (offset : Z)
  : option (go (result (string * Z * Z * Z))) :=
  r ← parseDomainName packet offset;
  Some match r with
  | Panic p => Panic p
  | Return (Err err) => Return (Err err)
  | Return (Ok (domain, nameBytes)) =>
      let bytesRead := nameBytes in
      if int_add (int_add offset bytesRead) 4 >? len packet
      then Return (Err "packet too short for question section")
      else
        t1 ← index packet (int_add offset bytesRead);
        t2 ← index packet (int_add (int_add offset bytesRead) 1);
        let qtype := uint16_be t1 t2 in
        let bytesRead := int_add bytesRead 2 in
        c1 ← index packet (int_add offset bytesRead);
        c2 ← index packet (int_add (int_add offset bytesRead) 1);
        let qclass := uint16_be c1 c2 in
        let bytesRead := int_add bytesRead 2 in
        Return (Ok (domain, qtype, qclass, bytesRead))
  end.

(** ** [HandleDNSPacket]: the decoding of a query *)

(** The two bytes at [i] and [i+1] as a big-endian [uint16], the way
    [HandleDNSPacket] reads the ID, the flags and QDCOUNT. *)
Definition u16_at (packet : list byte) (i : Z) : go Z :=
  hi ← index packet i;
  lo ← index packet (int_add i 1);
  Return (uint16_be hi lo).

Definition header_id (packet : list byte) : go Z := u16_at packet 0.
Definition header_flags (packet : list byte) : go Z := u16_at packet 2.
Definition header_qdcount (packet : list byte) : go Z := u16_at packet 4.

(** The three counts that [HandleDNSPacket] does not read lie behind
    QDCOUNT in the 12-byte header. *)
Definition header_ancount (packet : list byte) : go Z := u16_at packet 6.
Definition header_nscount (packet : list byte) : go Z := u16_at packet 8.
Definition header_arcount (packet : list byte) : go Z := u16_at packet 10.

(** The fields of the flags word: bit 15 QR, bits 14-11 Opcode, bit 10 AA,
    bit 9 TC, bit 8 RD, bit 7 RA, bits 3-0 RCODE. *)
Definition flag_QR (flags : Z) : bool := Z.testbit flags 15.
Definition flag_Opcode (flags : Z) : Z := Z.land (Z.shiftr flags 11) 15.
Definition flag_AA (flags : Z) : bool := Z.testbit flags 10.
Definition flag_TC (flags : Z) : bool := Z.testbit flags 9.
Definition flag_RD (flags : Z) : bool := Z.testbit flags 8.
Definition flag_RA (flags : Z) : bool := Z.testbit flags 7.
Definition flag_RCODE (flags : Z) : Z := Z.land flags 15.

(** What [HandleDNSPacket] prints, one value per [Println]/[Printf]. *)
Inductive line : Type :=
| packet_too_short
| query_id (id : Z)
| query_flags (flags : Z)
| query_questions (qdcount : Z)
| question_error (msg : string)
| question_line (i : Z) (domain : string) (qtype qclass : Z).

(** The [for i := 0; i < int(qdcount); i++] loop; [todo] is the number of
    passes that are left, [i] the loop counter.  The result is what the
    loop prints and the [offset] it has reached. *)
Fixpoint handle_questions (todo : nat) (i : Z) (packet : list byte) (offset : Z)
  : option (go (list line * Z)) :=
  match todo with
  | O => Some (Return ([], offset))
  | S todo' =>
      r ← parseQuestion packet offset;
      match r with
      | Panic p => Some (Panic p)
      | Return (Err msg) => Some (Return ([question_error msg], offset))
      | Return (Ok (domain, qtype, qclass, bytesRead)) =>
          rest ← handle_questions todo' (int_add i 1) packet (int_add offset bytesRead);
          Some ('(out, offset') ← rest;
                Return (question_line (int_add i 1) domain qtype qclass :: out,
                        offset'))
      end
  end.

Definition HandleDNSPacket (packet : list byte) : option (go (list line)) :=
  if len packet <? 12 then Some (Return [packet_too_short])
  else
    match header_id packet, header_flags packet, header_qdcount packet with
    | Return id, Return flags, Return qdcount =>
        rest ← handle_questions (Z.to_nat qdcount) 0 packet 12;
        Some ('(out, _) ← rest;
              Return (query_id id :: query_flags flags
                        :: query_questions qdcount :: out))
    | Panic p, _, _ | _, Panic p, _ | _, _, Panic p => Some (Panic p)
    end.

(** A query is decodable when [HandleDNSPacket] prints its header and all
    its questions, and no error. *)
Definition is_error_line (l : line) : bool :=
  match l with
  | packet_too_short | question_error _ => true
  | _ => false
  end.

Definition no_error_line (out : list line) : bool :=
  forallb (fun l => negb (is_error_line l)) out.

Definition decodable (packet : list byte) : Prop :=
  exists out, HandleDNSPacket packet = Some (Return out)
              /\ no_error_line out = true.

(** ** The wire form of names and questions

    The repository has no encoder; the layout below is the one
    [parseDomainName] and [parseQuestion] read: every label behind its
    length byte, a zero byte at the end of the name, then QTYPE and
    QCLASS as big-endian 16-bit numbers. *)

Definition encode_label (label : list byte) : list byte :=
  byte_of_Z (len label) :: label.

Definition encode_labels (labels : list (list byte)) : list byte :=
  concat (map encode_label labels).

Definition encode_name (labels : list (list byte)) : list byte :=
  encode_labels labels ++ [x00].

Definition encode_u16 (v : Z) : list byte :=
  [byte_of_Z (Z.shiftr v 8); byte_of_Z v].

Definition encode_question (labels : list (list byte)) (qtype qclass : Z)
  : list byte :=
  encode_name labels ++ encode_u16 qtype ++ encode_u16 qclass.

(** The name that [parseDomainName] builds: the labels joined by dots. *)
Definition dotted (labels : list (list byte)) : string :=
  String.concat "." (map string_of_list_byte labels).

(** A label of a well-formed name has 1 to 63 bytes. *)
Definition wf_label (label : list byte) : Prop := 1 <= len label <= 63.

(** A label that a length byte can announce at all has 1 to 255 bytes. *)
Definition label_fits (label : list byte) : Prop := 1 <= len label <= 255.

(** The four errors of the two parsers; each reports that the buffer ends
    before something that has to be there. *)
Definition truncated_input (msg : string) : Prop :=
  msg = "offset beyond packet length"%string
  \/ msg = "incomplete domain name"%string
  \/ msg = "incomplete label"%string
  \/ msg = "packet too short for question section"%string.

(** Every [int] of the parsers stays below [len packet + 255]; with this
    bound on the buffer no addition wraps around. *)
Definition no_wrap (packet : list byte) : Prop := len packet + 255 <= int_max.

(** ** Sample packets *)

(** A datagram of five bytes: shorter than the header. *)
Definition five_bytes : list byte := [x12; x34; x01; x00; x00].

(** ID 0x1234, RD set, one question [codecrafters.io A IN]. *)
Definition codecrafters_query : list byte :=
  [x12; x34; x01; x00; x00; x01; x00; x00; x00; x00; x00; x00]
  ++ encode_question [bytes "codecrafters"; bytes "io"] 1 1.

(** ** Notions used to state the properties *)

(** The bytes that [createResponse] leaves in place of the first 33 bytes
    of the query: byte 2 with its top bit set, QDCOUNT 1, and from byte 12
    on the length byte 12, [localdns], four bytes of the query, the label
    [io], the end of the name, QTYPE 1 and QCLASS 1. *)
Definition response_head (b0 b1 b2 b3 b6 b7 b8 b9 b10 b11 b21 b22 b23 b24 : byte)
  : list byte :=
  [b0; b1; byte_or b2 x80; b3; x00; x01; b6; b7; b8; b9; b10; b11; x0c]
  ++ bytes "localdns" ++ [b21; b22; b23; b24; x02] ++ bytes "io"
  ++ [x00; x00; x01; x00; x01].

(** What a pass appends to the name. *)
Definition join1 (d : string) (label : list byte) : string :=
  ((if String.eqb d "" then d else d ++ ".") ++ string_of_list_byte label)%string.

(** A pass of the loop on unbounded integers and without bounds checks:
    what [loop_body] does as long as no [int] wraps around. *)
Definition next_step (packet : list byte) (s : loop_state) : step :=
  if len packet <=? pos s then Fail "incomplete domain name"
  else
    let length := Z_of_byte (default x00 (packet !! Z.to_nat (pos s))) in
    if length =? 0 then Break (LoopState (pos s) (domain s) (bytesRead s + 1))
    else if len packet <? pos s + 1 + length then Fail "incomplete label"
    else Continue (LoopState (pos s + 1 + length)
                     (join1 (domain s)
                        (take (Z.to_nat length) (drop (Z.to_nat (pos s + 1)) packet)))
                     (bytesRead s + 1 + length)).

(** What the name decoder may answer when it is started at [offset]: a
    name of [n] bytes that lie in the buffer and end with the zero-length
    label, or an error for a buffer that ends too early. *)
Definition name_result_ok (packet : list byte) (offset : Z)
  (r : result (string * Z)) : Prop :=
  match r with
  | Ok (_, n) =>
      0 < n /\ offset + n <= len packet
      /\ packet !! Z.to_nat (offset + n - 1) = Some x00
  | Err msg => truncated_input msg
  end.

(** The same for the question decoder: a question of [n] bytes, more than
    the four of QTYPE and QCLASS, that lie in the buffer. *)
Definition question_result_ok (packet : list byte) (offset : Z)
  (r : result (string * Z * Z * Z)) : Prop :=
  match r with
  | Ok (_, qtype, qclass, n) => 4 < n /\ offset + n <= len packet
  | Err msg => truncated_input msg
  end.

(** The name after the passes over a run of labels. *)
Definition join_labels (d : string) (labels : list (list byte)) : string :=
  fold_left join1 labels d.

(** The name found in the response: [localdns], the bytes 21 to 24 of the
    query, and [.io]. *)
Definition response_name (b21 b22 b23 b24 : byte) : string :=
  ("localdns" ++ string_of_list_byte [b21; b22; b23; b24] ++ ".io")%string.

(** C5 as the specification words it: ID and Opcode and RD of the query,
    QR and AA set, NSCOUNT and ARCOUNT zero. *)
Definition response_header_claim (query r : list byte) : Prop :=
  exists qflags rflags,
    header_flags query = Return qflags /\ header_flags r = Return rflags
    /\ header_id r = header_id query
    /\ flag_QR rflags = true
    /\ flag_Opcode rflags = flag_Opcode qflags
    /\ flag_AA rflags = true
    /\ flag_RD rflags = flag_RD qflags
    /\ header_nscount r = Return 0 /\ header_arcount r = Return 0.



(** A resource record on the wire is a name of one byte at least, TYPE,
    CLASS, TTL (four bytes) and RDLENGTH: eleven bytes before any RDATA. *)
Definition min_record_size : Z := 1 + 2 + 2 + 4 + 2.

(** C3 as the specification words it, in the form that does not depend on
    how records are decoded: the QDCOUNT questions of the header are there
    to be read, and behind them the message has room for ANCOUNT records. *)
Definition count_invariant (r : list byte) : Prop :=
  exists qdcount ancount out e,
    header_qdcount r = Return qdcount /\ header_ancount r = Return ancount
    /\ handle_questions (Z.to_nat qdcount) 0 r 12 = Some (Return (out, e))
    /\ no_error_line out = true
    /\ ancount * min_record_size <= len r - e.

(** The query for [codecrafters.io] with 1 in its ANCOUNT field. *)
Definition query_with_ancount : list byte := <[7%nat := x01]> codecrafters_query.


(** A parser fails when it hands back an error. *)
Definition fails {A : Type} (r : option (go (result A))) : Prop :=
  exists msg, r = Some (Return (Err msg)).

(** A packet with a label of 64 bytes: the question [aaa...a.com A IN]. *)
Definition long_label_message : list byte :=
  [x12; x34; x01; x00; x00; x01; x00; x00; x00; x00; x00; x00]
  ++ encode_question [replicate 64 "a"%byte; bytes "com"] 1 1.

(** The offset that a compression pointer made of the bytes [b1] and [b2]
    would name: the low 14 bits of the two bytes. *)
Definition pointer_target (b1 b2 : byte) : Z := Z.land (uint16_be b1 b2) 16383.

(** A packet whose name at offset 12 starts with the bytes 0xC0 0x0C, a
    pointer to offset 12 itself, with 191 more bytes and a zero behind. *)
Definition pointer_message : list byte :=
  [x12; x34; x01; x00; x00; x01; x00; x00; x00; x00; x00; x00]
  ++ [xc0; x0c] ++ replicate 191 "a"%byte ++ [x00]
  ++ [x00; x01; x00; x01].

(** ** The receive loop of [main]

    The socket is the environment of the loop.  For every pass it says
    what [ReadFromUDP] hands back, the bytes [buf[:size]] and the source
    address or an error, and whether [WriteToUDP] fails.  What the loop
    does is the sequence of its prints and writes; [hex.Dump] and the
    formatting of the lines are left to the values they print. *)

Inductive net_pass (Addr : Type) : Type :=
| datagram (data : list byte) (source : Addr) (write_fails : bool)
| read_fails.
Arguments datagram {Addr} data source write_fails.
Arguments read_fails {Addr}.

Inductive event (Addr : Type) : Type :=
| print_receive_error
| print_received (source : Addr) (size : Z)
| print_dump (data : list byte)
| print_sending (size : Z)
| write_to_udp (response : list byte) (dest : Addr)
| print_send_failed.
Arguments print_receive_error {Addr}.
Arguments print_received {Addr} source size.
Arguments print_dump {Addr} data.
Arguments print_sending {Addr} size.
Arguments write_to_udp {Addr} response dest.
Arguments print_send_failed {Addr}.

(** How the loop ends on a finite run of passes: by the [break] after a
    read error, by a panic, or waiting in [ReadFromUDP] for a datagram. *)
Inductive loop_end : Type :=
| loop_break
| loop_panic (p : panic)
| loop_waiting.

Fixpoint main_loop {Addr : Type} (net : list (net_pass Addr))
  : list (event Addr) * loop_end :=
  match net with
  | [] => ([], loop_waiting)
  | read_fails :: _ => ([print_receive_error], loop_break)
  | datagram data source write_fails :: net' =>
      let received := [print_received source (len data); print_dump data] in
      match createResponse data with
      | Panic p => (received, loop_panic p)
      | Return response =>
          let sent :=
            [print_sending (len response); print_dump response;
             write_to_udp response source]
            ++ (if write_fails then [print_send_failed] else []) in
          let '(events, e) := main_loop net' in
          (received ++ sent ++ events, e)
      end
  end.

(** The responses that a run hands to [WriteToUDP], with their
    destinations. *)
Fixpoint writes {Addr : Type} (events : list (event Addr))
  : list (list byte * Addr) :=
  match events with
  | [] => []
  | write_to_udp response dest :: events' => (response, dest) :: writes events'
  | _ :: events' => writes events'
  end.

(** The datagrams that arrive before the first read error. *)
Fixpoint datagrams {Addr : Type} (net : list (net_pass Addr))
  : list (list byte * Addr) :=
  match net with
  | datagram data source _ :: net' => (data, source) :: datagrams net'
  | _ => []
  end.

(** A datagram of at least 33 bytes has arrived. *)
Definition long_datagram {Addr : Type} (pass : net_pass Addr) : Prop :=
  match pass with
  | datagram data _ _ => 33 <= len data
  | read_fails => False
  end.

(** ** Questions in wire form *)

Record question : Type := Question {
  q_labels : list (list byte);
  q_type : Z;
  q_class : Z
}.

Definition encode_questions (qs : list question) : list byte :=
  concat (map (fun q => encode_question (q_labels q) (q_type q) (q_class q)) qs).

(** A question that the wire form can carry: labels of 1 to 255 bytes and
    16-bit QTYPE and QCLASS. *)
Definition question_fits (q : question) : Prop :=
  Forall label_fits (q_labels q)
  /\ 0 <= q_type q < 65536 /\ 0 <= q_class q < 65536.

(** The lines that [HandleDNSPacket] prints for the questions [qs] when
    its loop counter stands at [i]. *)
Fixpoint question_lines (i : Z) (qs : list question) : list line :=
  match qs with
  | [] => []
  | q :: qs' =>
      question_line (i + 1) (dotted (q_labels q)) (q_type q) (q_class q)
      :: question_lines (i + 1) qs'
  end.

(** The response that [createResponse] builds from a query of 33 bytes or
    more, byte by byte. *)
Definition response_layout (query : list byte) : list byte :=
  take 2 query
  ++ [byte_or (default x00 (query !! 2%nat)) x80] ++ take 1 (drop 3 query)
  ++ [x00; x01] ++ take 6 (drop 6 query)
  ++ [x0c] ++ bytes "localdns" ++ take 4 (drop 21 query)
  ++ [x02] ++ bytes "io" ++ [x00; x00; x01; x00; x01]
  ++ drop 33 query.

(** * Properties *)

(** ** The run time *)

Lemma wrap_int_small x : int_min <= x <= int_max -> wrap_int x = x.
Proof.
  unfold int_min, int_max, wrap_int. intros H.
  rewrite Z.mod_small by lia. lia.
Qed.

Lemma int_add_small a b : int_min <= a + b <= int_max -> int_add a b = a + b.
Proof. apply wrap_int_small. Qed.

Lemma Z_of_byte_range b : 0 <= Z_of_byte b <= 255.
Proof.
  unfold Z_of_byte. pose proof (Byte.to_N_bounded b). lia.
Qed.

Lemma byte_of_Z_of_byte b : byte_of_Z (Z_of_byte b) = b.
Proof.
  unfold byte_of_Z. pose proof (Z_of_byte_range b).
  rewrite Z.mod_small by lia. unfold Z_of_byte.
  rewrite N2Z.id, Byte.of_to_N. reflexivity.
Qed.

Lemma Z_of_byte_of_Z z : 0 <= z <= 255 -> Z_of_byte (byte_of_Z z) = z.
Proof.
  intros H. unfold byte_of_Z, Z_of_byte. rewrite Z.mod_small by lia.
  destruct (Byte.of_N (Z.to_N z)) as [b|] eqn:E.
  - apply Byte.to_of_N in E. cbn. lia.
  - apply Byte.of_N_None_iff in E. lia.
Qed.

Lemma len_nonneg s : 0 <= len s.
Proof. unfold len. lia. Qed.

Lemma len_nil : len [] = 0.
Proof. reflexivity. Qed.

Lemma len_cons b s : len (b :: s) = 1 + len s.
Proof. unfold len. cbn [length]. lia. Qed.

Lemma len_app s t : len (s ++ t) = len s + len t.
Proof. unfold len. rewrite length_app. lia. Qed.

Lemma index_lookup s i b :
  0 <= i -> s !! Z.to_nat i = Some b -> index s i = Return b.
Proof.
  intros Hi Hb. unfold index, len. pose proof (lookup_lt_Some _ _ _ Hb).
  rewrite Hb.
  destruct (0 <=? i) eqn:E1; [|lia].
  destruct (i <? Z.of_nat (length s)) eqn:E2; [reflexivity|lia].
Qed.

Lemma index_panic s i :
  ~ (0 <= i < len s) -> index s i = Panic (index_out_of_range i (len s)).
Proof.
  intros H. unfold index.
  destruct (0 <=? i) eqn:E1; [|reflexivity].
  destruct (i <? len s) eqn:E2; [lia|reflexivity].
Qed.

Lemma index_in_range s i :
  0 <= i < len s -> exists b, s !! Z.to_nat i = Some b /\ index s i = Return b.
Proof.
  intros H. unfold len in H.
  destruct (lookup_lt_is_Some_2 s (Z.to_nat i)) as [b Hb]; [lia|].
  exists b. split; [exact Hb|]. apply index_lookup; [lia|exact Hb].
Qed.

Lemma store_lookup s i v :
  0 <= i -> is_Some (s !! Z.to_nat i) ->
  store s i v = Return (<[Z.to_nat i := v]> s).
Proof.
  intros Hi Hb. unfold store, len. apply lookup_lt_is_Some_1 in Hb.
  destruct (0 <=? i) eqn:E1; [|lia].
  destruct (i <? Z.of_nat (length s)) eqn:E2; [reflexivity|lia].
Qed.

Lemma copy_to_slice_ok s lo hi src :
  0 <= lo <= hi -> (Z.to_nat hi <= length s)%nat ->
  copy_to_slice s lo hi src
  = Return (overwrite s (Z.to_nat lo) (take (Z.to_nat (hi - lo)) src)).
Proof.
  intros H1 H2. unfold copy_to_slice, len.
  destruct (0 <=? lo) eqn:E1; [|lia].
  destruct (lo <=? hi) eqn:E2; [|lia].
  destruct (hi <=? Z.of_nat (length s)) eqn:E3; [reflexivity|lia].
Qed.

Lemma overwrite_spec src : forall dst n,
  (n + length src <= length dst)%nat ->
  overwrite dst n src = take n dst ++ src ++ drop (n + length src) dst.
Proof.
  induction src as [|b src IH]; intros dst n H; cbn [overwrite length] in *.
  - rewrite Nat.add_0_r. cbn. symmetry. apply take_drop.
  - rewrite IH by (rewrite length_insert; lia).
    rewrite (take_S_r (<[n:=b]> dst) n b)
      by (apply list_lookup_insert_eq; lia).
    rewrite take_insert_ge by lia.
    rewrite drop_insert_lt by lia.
    rewrite <- app_assoc.
    replace (n + S (length src))%nat with (S n + length src)%nat by lia.
    reflexivity.
Qed.

Lemma copy_make query : copy (make (len query)) query = query.
Proof.
  unfold copy, make, len. rewrite Nat2Z.id, length_replicate.
  rewrite firstn_all. rewrite overwrite_spec by (rewrite length_replicate; lia).
  cbn. rewrite drop_ge by (rewrite length_replicate; lia).
  apply app_nil_r.
Qed.

(** ** [createResponse] on queries of 33 bytes and more *)

Ltac go_step :=
  first
    [ erewrite index_lookup by (first [lia | reflexivity])
    | rewrite store_lookup by (first [lia | eexists; reflexivity])
    | rewrite copy_to_slice_ok by (cbn [length]; lia) ];
  cbv -[store copy_to_slice index byte_or len].

Lemma createResponse_cons
  b0 b1 b2 b3 b4 b5 b6 b7 b8 b9 b10 b11 b12 b13 b14 b15 b16 b17 b18 b19 b20
  b21 b22 b23 b24 b25 b26 b27 b28 b29 b30 b31 b32 rest :
  createResponse
    ([b0; b1; b2; b3; b4; b5; b6; b7; b8; b9; b10; b11; b12; b13; b14; b15;
      b16; b17; b18; b19; b20; b21; b22; b23; b24; b25; b26; b27; b28; b29;
      b30; b31; b32] ++ rest)
  = Return (response_head b0 b1 b2 b3 b6 b7 b8 b9 b10 b11 b21 b22 b23 b24
            ++ rest).
Proof.
  unfold createResponse. rewrite copy_make. cbn [app].
  repeat go_step. reflexivity.
Qed.

(** A list of at least [n] elements, taken apart. *)
Ltac uncons l H :=
  let b := fresh "b" in
  destruct l as [|b l]; [cbn in H; lia|]; cbn [length] in H.

Lemma long_query query :
  33 <= len query ->
  exists b0 b1 b2 b3 b4 b5 b6 b7 b8 b9 b10 b11 b12 b13 b14 b15 b16 b17 b18
         b19 b20 b21 b22 b23 b24 b25 b26 b27 b28 b29 b30 b31 b32 rest,
    query = [b0; b1; b2; b3; b4; b5; b6; b7; b8; b9; b10; b11; b12; b13; b14;
             b15; b16; b17; b18; b19; b20; b21; b22; b23; b24; b25; b26; b27;
             b28; b29; b30; b31; b32] ++ rest.
Proof.
  unfold len. intros H.
  do 33 (uncons query H).
  repeat eexists.
Qed.

(** A query shorter than the 33 bytes that [createResponse] writes to makes
    it panic. *)
Lemma createResponse_short query :
  len query < 33 -> exists p, createResponse query = Panic p.
Proof.
  unfold len. intros H.
  do 33 (destruct query as [|? query]; [eexists; vm_compute; reflexivity|]).
  cbn [length] in H. lia.
Qed.

(** ** The header of the response *)

Lemma u16_at_lookup s i hi lo :
  0 <= i < 12 ->
  s !! Z.to_nat i = Some hi -> s !! Z.to_nat (i + 1) = Some lo ->
  u16_at s i = Return (uint16_be hi lo).
Proof.
  intros Hi Hhi Hlo. unfold u16_at.
  rewrite (index_lookup s i hi) by (assumption || lia). cbn.
  rewrite int_add_small by (unfold int_min, int_max; lia).
  rewrite (index_lookup s (i + 1) lo) by (assumption || lia). reflexivity.
Qed.

Lemma byte_testbit_high b n : 8 <= n -> Z.testbit (Z_of_byte b) n = false.
Proof.
  intros Hn. pose proof (Z_of_byte_range b) as Hb.
  destruct (Z.eq_dec (Z_of_byte b) 0) as [->|Hz]; [apply Z.bits_0|].
  apply Z.bits_above_log2; [lia|].
  assert (Z.log2 (Z_of_byte b) < 8); [|lia].
  apply Z.log2_lt_pow2; lia.
Qed.

Lemma uint16_be_testbit_high hi lo n :
  8 <= n ->
  Z.testbit (uint16_be hi lo) n
  = Z.testbit (Z.land (Z.shiftl (Z_of_byte hi) 8) 65535) n.
Proof.
  intros Hn. unfold uint16_be.
  rewrite Z.lor_spec, (byte_testbit_high lo) by assumption.
  apply orb_false_r.
Qed.

Lemma uint16_be_testbit_low hi lo n :
  0 <= n < 8 -> Z.testbit (uint16_be hi lo) n = Z.testbit (Z_of_byte lo) n.
Proof.
  intros Hn. unfold uint16_be.
  rewrite Z.lor_spec, Z.land_spec, Z.shiftl_spec by lia.
  rewrite (Z.testbit_neg_r _ (n - 8)) by lia. reflexivity.
Qed.

Lemma flag_QR_set hi lo : flag_QR (uint16_be (byte_or hi x80) lo) = true.
Proof.
  unfold flag_QR. rewrite uint16_be_testbit_high by lia.
  destruct hi; reflexivity.
Qed.

Lemma flag_AA_kept hi lo :
  flag_AA (uint16_be (byte_or hi x80) lo) = flag_AA (uint16_be hi lo).
Proof.
  unfold flag_AA. rewrite !uint16_be_testbit_high by lia.
  destruct hi; reflexivity.
Qed.

Lemma flag_TC_kept hi lo :
  flag_TC (uint16_be (byte_or hi x80) lo) = flag_TC (uint16_be hi lo).
Proof.
  unfold flag_TC. rewrite !uint16_be_testbit_high by lia.
  destruct hi; reflexivity.
Qed.

Lemma flag_RD_kept hi lo :
  flag_RD (uint16_be (byte_or hi x80) lo) = flag_RD (uint16_be hi lo).
Proof.
  unfold flag_RD. rewrite !uint16_be_testbit_high by lia.
  destruct hi; reflexivity.
Qed.

Lemma flag_RA_kept hi hi' lo :
  flag_RA (uint16_be hi lo) = flag_RA (uint16_be hi' lo).
Proof.
  unfold flag_RA. rewrite !uint16_be_testbit_low by lia. reflexivity.
Qed.

Lemma flag_RCODE_kept hi hi' lo :
  flag_RCODE (uint16_be hi lo) = flag_RCODE (uint16_be hi' lo).
Proof.
  unfold flag_RCODE. apply Z.bits_inj'. intros n Hn.
  rewrite !Z.land_spec.
  destruct (Z.lt_ge_cases n 8) as [H|H].
  - rewrite !uint16_be_testbit_low by lia. reflexivity.
  - replace (Z.testbit 15 n) with false; [rewrite !andb_false_r; reflexivity|].
    symmetry. apply Z.bits_above_log2; [lia|]. cbn. lia.
Qed.

Lemma flag_Opcode_kept hi lo :
  flag_Opcode (uint16_be (byte_or hi x80) lo) = flag_Opcode (uint16_be hi lo).
Proof.
  unfold flag_Opcode, uint16_be. rewrite !Z.shiftr_lor.
  assert (Z.shiftr (Z_of_byte lo) 11 = 0) as ->.
  { apply Z.bits_inj'. intros n Hn.
    rewrite Z.shiftr_spec, Z.bits_0 by lia. apply byte_testbit_high. lia. }
  rewrite !Z.lor_0_r. destruct hi; reflexivity.
Qed.

(** ** One pass of the loop of [parseDomainName] *)

Lemma slice_in_range s lo hi :
  0 <= lo <= hi -> hi <= len s ->
  slice s lo hi = Return (take (Z.to_nat (hi - lo)) (drop (Z.to_nat lo) s)).
Proof.
  intros H1 H2. unfold slice.
  destruct (0 <=? lo) eqn:E1; [|lia].
  destruct (lo <=? hi) eqn:E2; [|lia].
  destruct (hi <=? len s) eqn:E3; [reflexivity|lia].
Qed.

Lemma loop_body_next_step packet s :
  0 <= pos s ->
  (pos s < len packet ->
   pos s + 256 <= int_max /\ 0 <= bytesRead s /\ bytesRead s + 256 <= int_max) ->
  loop_body packet s = Return (next_step packet s).
Proof.
  intros Hpos Hmax. unfold loop_body, next_step.
  rewrite Z.geb_leb.
  destruct (len packet <=? pos s) eqn:E; [reflexivity|].
  apply Z.leb_gt in E. destruct (Hmax E) as (Hmax' & Hbr1 & Hbr2).
  destruct (index_in_range packet (pos s)) as (b & Hb & ->); [lia|].
  rewrite Hb. change (default x00 (Some b)) with b. cbn [mbind go_bind].
  pose proof (Z_of_byte_range b) as Hrange.
  unfold int_max in *.
  destruct (Z_of_byte b =? 0) eqn:E0.
  - rewrite int_add_small by (unfold int_min, int_max; lia). reflexivity.
  - apply Z.eqb_neq in E0.
    rewrite (int_add_small (pos s) 1) by (unfold int_min, int_max; lia).
    rewrite (int_add_small (pos s + 1)) by (unfold int_min, int_max; lia).
    rewrite (int_add_small (bytesRead s) 1) by (unfold int_min, int_max; lia).
    rewrite (int_add_small (bytesRead s + 1)) by (unfold int_min, int_max; lia).
    rewrite Z.gtb_ltb.
    destruct (len packet <? pos s + 1 + Z_of_byte b) eqn:E1; [reflexivity|].
    apply Z.ltb_ge in E1.
    rewrite slice_in_range by lia. cbn [mbind go_bind].
    unfold join1.
    replace (pos s + 1 + Z_of_byte b - (pos s + 1)) with (Z_of_byte b) by lia.
    reflexivity.
Qed.

(** ** Termination of the loop *)

(** A pass that goes on has moved the read position forward, and not past
    the end of the packet. *)
Lemma loop_body_advances packet s s' :
  len packet <= int_max ->
  loop_body packet s = Return (Continue s') ->
  0 <= pos s /\ pos s < pos s' <= len packet.
Proof.
  intros Hlen. unfold loop_body. rewrite Z.geb_leb.
  destruct (len packet <=? pos s) eqn:E; [discriminate|].
  apply Z.leb_gt in E.
  destruct (Z_le_gt_dec 0 (pos s)) as [Hpos|Hneg].
  2:{ rewrite index_panic by lia. discriminate. }
  destruct (index_in_range packet (pos s)) as (b & Hb & ->); [lia|].
  cbn [mbind go_bind].
  destruct (Z_of_byte b =? 0); [discriminate|].
  rewrite (int_add_small (pos s) 1) by (unfold int_min, int_max in *; lia).
  rewrite Z.gtb_ltb.
  destruct (len packet <? int_add (pos s + 1) (Z_of_byte b)) eqn:E1;
    [discriminate|].
  apply Z.ltb_ge in E1. unfold slice.
  destruct (0 <=? pos s + 1) eqn:E2; [|discriminate].
  destruct (pos s + 1 <=? int_add (pos s + 1) (Z_of_byte b)) eqn:E3;
    [|discriminate].
  destruct (int_add (pos s + 1) (Z_of_byte b) <=? len packet) eqn:E4;
    [|discriminate].
  cbn. intros [= <-]. cbn [pos]. lia.
Qed.

Lemma parse_loop_returns packet : forall fuel s,
  len packet <= int_max ->
  (Z.to_nat (len packet - Z.max 0 (pos s)) < fuel)%nat ->
  is_Some (parse_loop fuel packet s).
Proof.
  induction fuel as [|fuel IH]; intros s Hlen Hfuel; [lia|].
  cbn [parse_loop].
  destruct (loop_body packet s) as [[s'|s'|msg]|p] eqn:E; try (eexists; reflexivity).
  apply loop_body_advances in E; [|assumption].
  apply IH; [assumption|lia].
Qed.

(** More fuel does not change a result. *)
Lemma parse_loop_mono packet r : forall fuel fuel' s,
  parse_loop fuel packet s = Some r -> (fuel <= fuel')%nat ->
  parse_loop fuel' packet s = Some r.
Proof.
  induction fuel as [|fuel IH]; intros fuel' s H Hle; [discriminate|].
  destruct fuel' as [|fuel']; [lia|].
  cbn [parse_loop] in *.
  destruct (loop_body packet s) as [[s'|s'|msg]|p]; try assumption.
  apply (IH fuel' s' H). lia.
Qed.

Lemma parse_loop_agree packet fuel fuel' s r r' :
  parse_loop fuel packet s = Some r -> parse_loop fuel' packet s = Some r' ->
  r = r'.
Proof.
  intros H H'.
  apply (parse_loop_mono _ _ _ (Nat.max fuel fuel')) in H; [|lia].
  apply (parse_loop_mono _ _ _ (Nat.max fuel fuel')) in H'; [|lia].
  congruence.
Qed.

(** ** No access outside the buffer *)

Lemma parse_loop_safe packet offset : forall fuel s,
  no_wrap packet ->
  0 <= offset <= pos s -> pos s <= len packet ->
  bytesRead s = pos s - offset ->
  (Z.to_nat (len packet - pos s) < fuel)%nat ->
  exists r, parse_loop fuel packet s = Some (Return r)
            /\ name_result_ok packet offset r.
Proof.
  unfold no_wrap.
  induction fuel as [|fuel IH]; intros s Hw Hoff Hpos Hbr Hfuel; [lia|].
  cbn [parse_loop]. rewrite loop_body_next_step by lia.
  unfold next_step.
  destruct (len packet <=? pos s) eqn:E.
  { eexists. split; [reflexivity|]. right. left. reflexivity. }
  apply Z.leb_gt in E.
  destruct (index_in_range packet (pos s)) as (b & Hlook & _); [lia|].
  rewrite Hlook. change (default x00 (Some b)) with b.
  pose proof (Z_of_byte_range b) as Hb.
  destruct (Z_of_byte b =? 0) eqn:E0.
  { apply Z.eqb_eq in E0. eexists. split; [reflexivity|].
    cbn [name_result_ok bytesRead domain].
    split; [lia|]. split; [lia|].
    replace (offset + (bytesRead s + 1) - 1) with (pos s) by lia.
    rewrite Hlook, <- (byte_of_Z_of_byte b), E0. reflexivity. }
  apply Z.eqb_neq in E0.
  destruct (len packet <? _) eqn:E1.
  { eexists. split; [reflexivity|]. right. right. left. reflexivity. }
  apply Z.ltb_ge in E1.
  apply IH; cbn [pos bytesRead]; try assumption; lia.
Qed.

Lemma parseDomainName_safe packet offset :
  no_wrap packet -> 0 <= offset ->
  exists r, parseDomainName packet offset = Some (Return r)
            /\ name_result_ok packet offset r.
Proof.
  intros Hw Hoff. unfold parseDomainName. rewrite Z.geb_leb.
  destruct (len packet <=? offset) eqn:E.
  { eexists. split; [reflexivity|]. left. reflexivity. }
  apply Z.leb_gt in E.
  apply parse_loop_safe; cbn [pos bytesRead]; try assumption; try lia.
  unfold len in *. lia.
Qed.

Lemma parseQuestion_safe packet offset :
  no_wrap packet -> 0 <= offset ->
  exists r, parseQuestion packet offset = Some (Return r)
            /\ question_result_ok packet offset r.
Proof.
  intros Hw Hoff. unfold parseQuestion.
  destruct (parseDomainName_safe packet offset Hw Hoff) as (r & -> & Hr).
  cbn [mbind option_bind]. unfold no_wrap, int_max in Hw.
  destruct r as [[d n]|msg]; cbn in Hr.
  2:{ eexists. split; [reflexivity|]. exact Hr. }
  rewrite (int_add_small offset n) by (unfold int_min, int_max; lia).
  rewrite (int_add_small (offset + n) 4) by (unfold int_min, int_max; lia).
  rewrite Z.gtb_ltb.
  destruct (len packet <? offset + n + 4) eqn:E.
  { eexists. split; [reflexivity|]. right. right. right. reflexivity. }
  apply Z.ltb_ge in E.
  rewrite (int_add_small (offset + n) 1) by (unfold int_min, int_max; lia).
  rewrite (int_add_small n 2) by (unfold int_min, int_max; lia).
  rewrite (int_add_small offset (n + 2)) by (unfold int_min, int_max; lia).
  rewrite (int_add_small (offset + (n + 2)) 1) by (unfold int_min, int_max; lia).
  rewrite (int_add_small (n + 2) 2) by (unfold int_min, int_max; lia).
  destruct (index_in_range packet (offset + n)) as (t1 & _ & ->); [lia|].
  destruct (index_in_range packet (offset + n + 1)) as (t2 & _ & ->); [lia|].
  destruct (index_in_range packet (offset + (n + 2))) as (c1 & _ & ->); [lia|].
  destruct (index_in_range packet (offset + (n + 2) + 1)) as (c2 & _ & ->); [lia|].
  cbn [mbind go_bind].
  eexists. split; [reflexivity|]. cbn. lia.
Qed.

(** ** Decoding the wire form *)

Lemma len_encode_label label : len (encode_label label) = 1 + len label.
Proof. unfold encode_label. apply len_cons. Qed.

Lemma encode_labels_cons label labels :
  encode_labels (label :: labels) = encode_label label ++ encode_labels labels.
Proof. reflexivity. Qed.

Lemma len_encode_name labels :
  len (encode_name labels) = len (encode_labels labels) + 1.
Proof. unfold encode_name. rewrite len_app. reflexivity. Qed.

Lemma length_labels_le labels :
  Forall label_fits labels ->
  (length labels <= length (encode_labels labels))%nat.
Proof.
  induction 1 as [|l ls _ _ IH]; [cbn; lia|].
  rewrite encode_labels_cons, length_app. cbn. lia.
Qed.

Lemma to_nat_len s : Z.to_nat (len s) = length s.
Proof. unfold len. apply Nat2Z.id. Qed.

Lemma lookup_len_middle prefix (b : byte) rest :
  (prefix ++ b :: rest) !! Z.to_nat (len prefix) = Some b.
Proof. rewrite to_nat_len. apply list_lookup_middle. reflexivity. Qed.

Lemma drop_len_succ prefix (b : byte) rest :
  drop (Z.to_nat (len prefix + 1)) (prefix ++ b :: rest) = rest.
Proof.
  replace (Z.to_nat (len prefix + 1)) with (length (prefix ++ [b]))
    by (rewrite length_app; unfold len; cbn; lia).
  change (prefix ++ b :: rest) with (prefix ++ [b] ++ rest).
  rewrite (app_assoc prefix [b] rest). apply drop_app_length.
Qed.

Lemma next_step_label prefix label rest d br :
  label_fits label ->
  next_step (prefix ++ encode_label label ++ rest) (LoopState (len prefix) d br)
  = Continue (LoopState (len prefix + len (encode_label label))
                (join1 d label) (br + len (encode_label label))).
Proof.
  intros Hfit. unfold label_fits in Hfit. unfold next_step. cbn [pos domain bytesRead].
  rewrite !len_app, len_encode_label.
  pose proof (len_nonneg rest) as Hrest.
  destruct (_ <=? len prefix) eqn:E; [apply Z.leb_le in E; lia|clear E].
  unfold encode_label. cbn [app].
  rewrite lookup_len_middle, drop_len_succ.
  change (default x00 (Some ?b)) with b.
  rewrite Z_of_byte_of_Z by lia.
  destruct (len label =? 0) eqn:E; [apply Z.eqb_eq in E; lia|clear E].
  destruct (_ <? _) eqn:E; [apply Z.ltb_lt in E; lia|clear E].
  rewrite to_nat_len, take_app_length.
  do 2 f_equal; lia.
Qed.

Lemma next_step_end prefix rest d br :
  next_step (prefix ++ x00 :: rest) (LoopState (len prefix) d br)
  = Break (LoopState (len prefix) d (br + 1)).
Proof.
  unfold next_step. cbn [pos domain bytesRead].
  rewrite len_app, len_cons. pose proof (len_nonneg rest).
  destruct (_ <=? len prefix) eqn:E; [apply Z.leb_le in E; lia|clear E].
  rewrite lookup_len_middle. reflexivity.
Qed.

Lemma next_step_eof prefix d br :
  next_step prefix (LoopState (len prefix) d br) = Fail "incomplete domain name".
Proof.
  unfold next_step. cbn [pos]. rewrite Z.leb_refl. reflexivity.
Qed.

(** A length byte with fewer bytes behind it than it announces. *)
Lemma next_step_cut prefix b tail d br :
  Z_of_byte b <> 0 -> len tail < Z_of_byte b ->
  next_step (prefix ++ b :: tail) (LoopState (len prefix) d br)
  = Fail "incomplete label".
Proof.
  intros Hb Htail. unfold next_step. cbn [pos domain bytesRead].
  rewrite len_app, len_cons. pose proof (len_nonneg tail).
  destruct (_ <=? len prefix) eqn:E; [apply Z.leb_le in E; lia|clear E].
  rewrite lookup_len_middle.
  change (default x00 (Some b)) with b.
  destruct (Z_of_byte b =? 0) eqn:E; [apply Z.eqb_eq in E; lia|clear E].
  destruct (_ <? _) eqn:E; [reflexivity|apply Z.ltb_ge in E; lia].
Qed.

(** The passes over a run of labels. *)
Lemma parse_loop_labels rest offset fuel : forall labels prefix d,
  Forall label_fits labels ->
  0 <= offset <= len prefix ->
  len prefix + len (encode_labels labels) + 256 <= int_max ->
  parse_loop (length labels + fuel) (prefix ++ encode_labels labels ++ rest)
    (LoopState (len prefix) d (len prefix - offset))
  = parse_loop fuel (prefix ++ encode_labels labels ++ rest)
      (LoopState (len prefix + len (encode_labels labels))
         (join_labels d labels)
         (len prefix + len (encode_labels labels) - offset)).
Proof.
  induction labels as [|l ls IH]; intros prefix d Hfit Hoff Hmax.
  - cbn [length encode_labels map concat Nat.add join_labels fold_left].
    rewrite len_nil, !Z.add_0_r. reflexivity.
  - inversion Hfit as [|? ? Hl Hls]; subst.
    rewrite encode_labels_cons in *. rewrite len_app, len_encode_label in Hmax.
    pose proof (len_nonneg (encode_labels ls)) as Hnn.
    pose proof (len_nonneg prefix) as Hnp.
    unfold label_fits in Hl.
    cbn [length Nat.add parse_loop].
    rewrite loop_body_next_step by (cbn [pos bytesRead]; lia).
    rewrite <- (app_assoc (encode_label l)).
    rewrite next_step_label by assumption.
    rewrite (app_assoc prefix).
    specialize (IH (prefix ++ encode_label l) (join1 d l) Hls).
    rewrite len_app, len_encode_label in IH.
    rewrite len_encode_label, len_app, len_encode_label.
    replace (len prefix - offset + (1 + len l))
      with (len prefix + (1 + len l) - offset) by lia.
    rewrite IH by lia. cbn [join_labels fold_left].
    do 2 f_equal; lia.
Qed.

(** The name that the passes put together is the dotted name. *)
Lemma string_app_assoc (a b c : string) :
  ((a ++ b) ++ c)%string = (a ++ b ++ c)%string.
Proof. induction a as [|x a IH]; cbn; [reflexivity|]. rewrite IH. reflexivity. Qed.

Lemma string_of_label_nonempty label :
  label_fits label -> string_of_list_byte label <> ""%string.
Proof.
  unfold label_fits. intros H.
  destruct label; [rewrite len_nil in H; lia|discriminate].
Qed.

Lemma join1_nonempty d label : label_fits label -> join1 d label <> ""%string.
Proof.
  intros H. apply string_of_label_nonempty in H. unfold join1.
  destruct (String.eqb_spec d "") as [->|Hd]; [exact H|].
  destruct d; [congruence|discriminate].
Qed.

Lemma join_labels_dotted labels : forall d,
  Forall label_fits labels -> d <> ""%string ->
  join_labels d labels
  = match labels with
    | [] => d
    | _ :: _ => (d ++ "." ++ dotted labels)%string
    end.
Proof.
  induction labels as [|l ls IH]; intros d Hfit Hd; [reflexivity|].
  inversion Hfit as [|? ? Hl Hls]; subst.
  cbn [join_labels fold_left]. fold (join_labels (join1 d l) ls).
  rewrite IH by (try assumption; apply join1_nonempty; assumption).
  unfold join1. destruct (String.eqb_spec d "") as [->|_]; [congruence|].
  unfold dotted. destruct ls as [|l' ls]; cbn [map String.concat].
  - apply string_app_assoc.
  - rewrite !string_app_assoc. reflexivity.
Qed.

Lemma join_labels_empty labels :
  Forall label_fits labels -> join_labels "" labels = dotted labels.
Proof.
  destruct labels as [|l ls]; intros Hfit; [reflexivity|].
  inversion Hfit as [|? ? Hl Hls]; subst.
  cbn [join_labels fold_left]. fold (join_labels (join1 "" l) ls).
  rewrite join_labels_dotted by (try assumption; apply join1_nonempty; assumption).
  unfold dotted. destruct ls; reflexivity.
Qed.

Lemma parseDomainName_wire prefix labels rest :
  Forall label_fits labels ->
  len prefix + len (encode_name labels) + 255 <= int_max ->
  parseDomainName (prefix ++ encode_name labels ++ rest) (len prefix)
  = Some (Return (Ok (dotted labels, len (encode_name labels)))).
Proof.
  intros Hfit Hmax. rewrite len_encode_name in *.
  pose proof (len_nonneg prefix) as Hnp.
  pose proof (len_nonneg rest) as Hnr.
  pose proof (len_nonneg (encode_labels labels)) as Hnl.
  unfold parseDomainName. unfold encode_name. rewrite <- !app_assoc.
  rewrite !len_app, len_cons, len_nil. rewrite Z.geb_leb.
  destruct (_ <=? len prefix) eqn:E; [apply Z.leb_le in E; lia|clear E].
  apply (parse_loop_mono _ _ (length labels + 1)).
  2:{ pose proof (length_labels_le labels Hfit). rewrite !length_app. lia. }
  replace 0 with (len prefix - len prefix) by lia.
  rewrite parse_loop_labels by (assumption || lia).
  cbn [parse_loop]. rewrite loop_body_next_step by (cbn [pos bytesRead]; lia).
  rewrite app_assoc. rewrite <- len_app. cbn [app].
  rewrite next_step_end. cbn [domain bytesRead].
  rewrite join_labels_empty by assumption. rewrite len_app.
  do 4 f_equal. lia.
Qed.

Lemma index_skip q mid b rest k :
  k = len q + len mid -> index (q ++ mid ++ b :: rest) k = Return b.
Proof.
  intros ->. rewrite app_assoc, <- len_app.
  apply index_lookup; [apply len_nonneg|apply lookup_len_middle].
Qed.

Lemma index_four q t1 t2 c1 c2 rest :
  let s := q ++ t1 :: t2 :: c1 :: c2 :: rest in
  index s (len q) = Return t1 /\ index s (len q + 1) = Return t2
  /\ index s (len q + 2) = Return c1 /\ index s (len q + 3) = Return c2.
Proof.
  cbv zeta. repeat split.
  - apply (index_skip q [] t1 (t2 :: c1 :: c2 :: rest)). rewrite len_nil. lia.
  - apply (index_skip q [t1] t2 (c1 :: c2 :: rest)). reflexivity.
  - apply (index_skip q [t1; t2] c1 (c2 :: rest)). reflexivity.
  - apply (index_skip q [t1; t2; c1] c2 rest). reflexivity.
Qed.

Lemma parseQuestion_wire prefix labels t1 t2 c1 c2 rest :
  Forall label_fits labels ->
  len prefix + len (encode_name labels) + 259 <= int_max ->
  parseQuestion (prefix ++ encode_name labels ++ [t1; t2; c1; c2] ++ rest)
    (len prefix)
  = Some (Return (Ok (dotted labels, uint16_be t1 t2, uint16_be c1 c2,
                      len (encode_name labels) + 4))).
Proof.
  intros Hfit Hmax. unfold parseQuestion.
  rewrite parseDomainName_wire by (assumption || lia).
  cbn [mbind option_bind].
  pose proof (len_nonneg prefix) as Hnp.
  pose proof (len_nonneg rest) as Hnr.
  pose proof (len_nonneg (encode_name labels)) as Hnl.
  set (n := len (encode_name labels)) in *.
  unfold int_max in Hmax.
  rewrite (int_add_small (len prefix) n) by (unfold int_min, int_max; lia).
  rewrite (int_add_small (len prefix + n) 4) by (unfold int_min, int_max; lia).
  rewrite (int_add_small (len prefix + n) 1) by (unfold int_min, int_max; lia).
  rewrite (int_add_small n 2) by (unfold int_min, int_max; lia).
  rewrite (int_add_small (len prefix) (n + 2)) by (unfold int_min, int_max; lia).
  rewrite (int_add_small (len prefix + (n + 2)) 1) by (unfold int_min, int_max; lia).
  rewrite (int_add_small (n + 2) 2) by (unfold int_min, int_max; lia).
  rewrite !len_app. fold n. rewrite !len_cons, len_nil.
  rewrite Z.gtb_ltb.
  destruct (_ <? _) eqn:E; [apply Z.ltb_lt in E; lia|clear E].
  rewrite (app_assoc prefix).
  change ([t1; t2; c1; c2] ++ rest) with (t1 :: t2 :: c1 :: c2 :: rest).
  replace (len prefix + (n + 2) + 1) with (len prefix + n + 3) by lia.
  replace (len prefix + (n + 2)) with (len prefix + n + 2) by lia.
  replace (len prefix + n) with (len (prefix ++ encode_name labels))
    by (rewrite len_app; reflexivity).
  destruct (index_four (prefix ++ encode_name labels) t1 t2 c1 c2 rest)
    as (-> & -> & -> & ->).
  cbn [mbind go_bind]. do 4 f_equal. lia.
Qed.

(** ** Truncated names and questions *)

Lemma parse_loop_cut offset : forall labels prefix d n,
  Forall label_fits labels ->
  (n <= length (encode_labels labels))%nat ->
  0 <= offset <= len prefix ->
  len prefix + len (encode_labels labels) + 256 <= int_max ->
  exists msg,
    parse_loop (S (length labels)) (prefix ++ take n (encode_labels labels))
      (LoopState (len prefix) d (len prefix - offset))
    = Some (Return (Err msg))
    /\ truncated_input msg.
Proof.
  assert (Heof : forall fuel prefix d br,
    0 <= len prefix ->
    exists msg, parse_loop (S fuel) prefix (LoopState (len prefix) d br)
                = Some (Return (Err msg)) /\ truncated_input msg).
  { intros fuel prefix d br Hnp. cbn [parse_loop].
    rewrite loop_body_next_step by (cbn [pos bytesRead]; lia).
    rewrite next_step_eof. eexists. split; [reflexivity|].
    right. left. reflexivity. }
  induction labels as [|l ls IH]; intros prefix d n Hfit Hn Hoff Hmax;
    pose proof (len_nonneg prefix) as Hnp.
  - change (encode_labels []) with (@nil byte).
    rewrite take_nil, app_nil_r. apply Heof. assumption.
  - inversion Hfit as [|? ? Hl Hls]; subst.
    destruct n as [|n]; [rewrite take_0, app_nil_r; apply Heof; assumption|].
    rewrite encode_labels_cons in *.
    rewrite len_app, len_encode_label in Hmax.
    rewrite length_app in Hn. unfold label_fits in Hl.
    pose proof (len_nonneg (encode_labels ls)) as Hnn.
    destruct (le_lt_dec (length (encode_label l)) (S n)) as [Hge|Hlt].
    + rewrite take_app_ge by assumption.
      cbn [length parse_loop].
      rewrite loop_body_next_step.
      2: cbn [pos]; lia.
      2:{ cbn [pos bytesRead]. intros _. lia. }
      rewrite next_step_label by assumption.
      rewrite (app_assoc prefix).
      specialize (IH (prefix ++ encode_label l) (join1 d l)
                    (S n - length (encode_label l))%nat Hls).
      rewrite len_app, len_encode_label in IH.
      rewrite len_encode_label.
      replace (len prefix - offset + (1 + len l))
        with (len prefix + (1 + len l) - offset) by lia.
      apply IH; lia.
    + unfold encode_label in *. cbn [app take length] in *.
      rewrite take_app_le by lia.
      cbn [parse_loop].
      rewrite loop_body_next_step.
      2: cbn [pos]; lia.
      2:{ cbn [pos bytesRead]. intros _. lia. }
      rewrite next_step_cut.
      * eexists. split; [reflexivity|]. right. right. left. reflexivity.
      * rewrite Z_of_byte_of_Z by lia. lia.
      * rewrite Z_of_byte_of_Z by lia. unfold len in *.
        rewrite length_take. lia.
Qed.

Lemma parseDomainName_cut prefix labels n :
  Forall label_fits labels ->
  (n <= length (encode_labels labels))%nat ->
  len prefix + len (encode_labels labels) + 256 <= int_max ->
  exists msg,
    parseDomainName (prefix ++ take n (encode_labels labels)) (len prefix)
    = Some (Return (Err msg))
    /\ truncated_input msg.
Proof.
  intros Hfit Hn Hmax. unfold parseDomainName.
  set (packet := prefix ++ take n (encode_labels labels)).
  pose proof (len_nonneg prefix) as Hnp.
  assert (len packet <= len prefix + len (encode_labels labels)) as Hlen.
  { unfold packet. rewrite len_app. unfold len. rewrite length_take. lia. }
  destruct (len prefix >=? len packet).
  { eexists. split; [reflexivity|]. left. reflexivity. }
  destruct (parse_loop_returns packet (S (length packet))
              (LoopState (len prefix) "" 0)) as [r Hr].
  { unfold int_max in *. lia. }
  { cbn [pos]. unfold len. lia. }
  destruct (parse_loop_cut (len prefix) labels prefix ""%string n)
    as (msg & Hcut & Hmsg); try assumption; try lia.
  rewrite Z.sub_diag in Hcut. fold packet in Hcut.
  rewrite Hr. rewrite (parse_loop_agree _ _ _ _ _ _ Hr Hcut).
  exists msg. split; [reflexivity|assumption].
Qed.

Lemma length_encode_u16 v : length (encode_u16 v) = 2%nat.
Proof. reflexivity. Qed.

Lemma length_encode_question labels qtype qclass :
  length (encode_question labels qtype qclass)
  = (length (encode_labels labels) + 5)%nat.
Proof.
  unfold encode_question, encode_name.
  rewrite !length_app, !length_encode_u16. cbn. lia.
Qed.

Lemma parseQuestion_truncated prefix labels qtype qclass n :
  Forall label_fits labels ->
  (n < length (encode_question labels qtype qclass))%nat ->
  no_wrap (prefix ++ encode_question labels qtype qclass) ->
  exists msg,
    parseQuestion (prefix ++ take n (encode_question labels qtype qclass))
      (len prefix)
    = Some (Return (Err msg))
    /\ truncated_input msg.
Proof.
  intros Hfit Hn Hw. unfold no_wrap in Hw.
  rewrite len_app in Hw. unfold len at 2 in Hw.
  rewrite length_encode_question in *.
  pose proof (len_nonneg prefix) as Hnp.
  unfold parseQuestion, encode_question.
  destruct (le_lt_dec n (length (encode_labels labels))) as [Hle|Hgt].
  - unfold encode_name. rewrite <- app_assoc, take_app_le by assumption.
    destruct (parseDomainName_cut prefix labels n) as (msg & -> & Hmsg);
      try assumption.
    { unfold len, int_max in *. lia. }
    cbn [mbind option_bind]. exists msg. split; [reflexivity|assumption].
  - assert (length (encode_name labels) = S (length (encode_labels labels)))
      as Hname by (unfold encode_name; rewrite length_app; cbn; lia).
    rewrite take_app_ge by lia.
    rewrite parseDomainName_wire; try assumption.
    2:{ unfold len, int_max in *. lia. }
    cbn [mbind option_bind].
    set (tail := take (n - length (encode_name labels))
                   (encode_u16 qtype ++ encode_u16 qclass)).
    assert (len tail < 4) as Htail.
    { unfold tail, len. rewrite length_take. lia. }
    pose proof (len_nonneg tail) as Hnt.
    assert (len (encode_name labels) = len (encode_labels labels) + 1) as Hlen
      by apply len_encode_name.
    unfold len in Hlen at 2.
    unfold int_max in Hw.
    rewrite (int_add_small (len prefix)) by (unfold int_min, int_max; lia).
    rewrite (int_add_small _ 4) by (unfold int_min, int_max; lia).
    rewrite !len_app, Z.gtb_ltb.
    destruct (_ <? _) eqn:E; [|apply Z.ltb_ge in E; lia].
    eexists. split; [reflexivity|]. right. right. right. reflexivity.
Qed.

(** ** The question section that [createResponse] writes *)

Lemma response_question
  b0 b1 b2 b3 b6 b7 b8 b9 b10 b11 b21 b22 b23 b24 rest :
  parseQuestion
    (response_head b0 b1 b2 b3 b6 b7 b8 b9 b10 b11 b21 b22 b23 b24 ++ rest) 12
  = Some (Return (Ok (response_name b21 b22 b23 b24, 1, 1, 21))).
Proof.
  set (header := [b0; b1; byte_or b2 x80; b3; x00; x01; b6; b7; b8; b9; b10; b11]).
  set (labels := [bytes "localdns" ++ [b21; b22; b23; b24]; bytes "io"]).
  change (response_head b0 b1 b2 b3 b6 b7 b8 b9 b10 b11 b21 b22 b23 b24 ++ rest)
    with (header ++ encode_name labels ++ [x00; x01; x00; x01] ++ rest).
  change 12 with (len header).
  rewrite parseQuestion_wire.
  - reflexivity.
  - repeat constructor; cbv; discriminate.
  - cbv. discriminate.
Qed.

Lemma response_name_wrong b21 b22 b23 b24 :
  response_name b21 b22 b23 b24 <> "localdns.io"%string.
Proof. cbv. discriminate. Qed.

(** C1 (the code departs from it): an input shorter than the 12-byte
    header does not get a format-error response.  [createResponse] writes
    to the bytes 2, 4, 5 and 12 of a buffer that is only as long as the
    query, so it panics with an index out of range and returns nothing. *)
Theorem createResponse_short_input_panics query :
  len query < 12 ->
  exists i, createResponse query = Panic (index_out_of_range i (len query)).
Proof.
  unfold len. intros H.
  do 12 (destruct query as [|? query]; [eexists; vm_compute; reflexivity|]).
  cbn [length] in H. lia.
Qed.

Lemma createResponse_short_input_panics_witness :
  len five_bytes < 12
  /\ exists i, createResponse five_bytes = Panic (index_out_of_range i (len five_bytes)).
Proof.
  split; [vm_compute; reflexivity|].
  apply createResponse_short_input_panics. vm_compute. reflexivity.
Defined.

(** The 5-byte input of the claim: the panic is at the write to byte 5. *)
Example createResponse_five_bytes :
  createResponse five_bytes = Panic (index_out_of_range 5 5).
Proof. reflexivity. Qed.

(** C10 (the code departs from it): for every query of at least 33 bytes
    the question section of the response parses, with qtype 1 and qclass
    1, but the name read back is never [localdns.io]: the length byte
    written in front of [localdns] is 12, so four bytes of the query are
    read as part of the label. *)
Theorem response_question_not_localdns query :
  33 <= len query ->
  exists r name,
    createResponse query = Return r
    /\ parseQuestion r 12 = Some (Return (Ok (name, 1, 1, 21)))
    /\ name <> "localdns.io"%string.
Proof.
  intros H.
  destruct (long_query query H)
    as (b0 & b1 & b2 & b3 & b4 & b5 & b6 & b7 & b8 & b9 & b10 & b11 & b12
        & b13 & b14 & b15 & b16 & b17 & b18 & b19 & b20 & b21 & b22 & b23
        & b24 & b25 & b26 & b27 & b28 & b29 & b30 & b31 & b32 & rest & ->).
  rewrite createResponse_cons.
  eexists. exists (response_name b21 b22 b23 b24).
  split; [reflexivity|]. split; [apply response_question|].
  apply response_name_wrong.
Qed.

Lemma response_question_not_localdns_witness :
  33 <= len codecrafters_query
  /\ exists r name,
       createResponse codecrafters_query = Return r
       /\ parseQuestion r 12 = Some (Return (Ok (name, 1, 1, 21)))
       /\ name <> "localdns.io"%string.
Proof.
  split; [vm_compute; discriminate|].
  apply response_question_not_localdns. vm_compute. discriminate.
Defined.

(** On the query for [codecrafters.io] the name read back from the
    response is [localdnsters.io]. *)
Example response_question_codecrafters :
  exists r, createResponse codecrafters_query = Return r
            /\ parseQuestion r 12
               = Some (Return (Ok ("localdnsters.io"%string, 1, 1, 21))).
Proof. eexists. split; reflexivity. Qed.

(** ** The header of the response *)

Ltac header_field :=
  unfold header_id, header_flags, header_qdcount, header_ancount,
    header_nscount, header_arcount;
  apply u16_at_lookup; [lia|reflexivity|reflexivity].

(** C5 fails as worded: the query for [codecrafters.io] is decodable and
    has AA clear, and so has the response. *)
Lemma response_header_claim_fails :
  decodable codecrafters_query
  /\ ~ exists r, createResponse codecrafters_query = Return r
                 /\ response_header_claim codecrafters_query r.
Proof.
  split.
  - eexists. split; vm_compute; reflexivity.
  - intros (r & Hr & qf & rf & _ & Hrf & _ & _ & _ & HAA & _).
    vm_compute in Hr. injection Hr as <-.
    vm_compute in Hrf. injection Hrf as <-.
    vm_compute in HAA. discriminate.
Qed.

(** C5, amended: for every query of at least 33 bytes the header of the
    response has the ID of the query, QR set, and Opcode, AA, TC, RD, RA
    and RCODE as they are in the query; QDCOUNT is 1 and ANCOUNT, NSCOUNT
    and ARCOUNT are the counts of the query, copied. *)
Theorem response_header_copied query :
  33 <= len query ->
  exists r id qflags rflags ancount nscount arcount,
    createResponse query = Return r
    /\ header_id query = Return id /\ header_id r = Return id
    /\ header_flags query = Return qflags /\ header_flags r = Return rflags
    /\ flag_QR rflags = true
    /\ flag_Opcode rflags = flag_Opcode qflags
    /\ flag_AA rflags = flag_AA qflags
    /\ flag_TC rflags = flag_TC qflags
    /\ flag_RD rflags = flag_RD qflags
    /\ flag_RA rflags = flag_RA qflags
    /\ flag_RCODE rflags = flag_RCODE qflags
    /\ header_qdcount r = Return 1
    /\ header_ancount query = Return ancount /\ header_ancount r = Return ancount
    /\ header_nscount query = Return nscount /\ header_nscount r = Return nscount
    /\ header_arcount query = Return arcount /\ header_arcount r = Return arcount.
Proof.
  intros H.
  destruct (long_query query H)
    as (b0 & b1 & b2 & b3 & b4 & b5 & b6 & b7 & b8 & b9 & b10 & b11 & b12
        & b13 & b14 & b15 & b16 & b17 & b18 & b19 & b20 & b21 & b22 & b23
        & b24 & b25 & b26 & b27 & b28 & b29 & b30 & b31 & b32 & rest & ->).
  rewrite createResponse_cons.
  eexists. exists (uint16_be b0 b1), (uint16_be b2 b3),
    (uint16_be (byte_or b2 x80) b3), (uint16_be b6 b7), (uint16_be b8 b9),
    (uint16_be b10 b11).
  split; [reflexivity|].
  split; [header_field|]. split; [header_field|].
  split; [header_field|]. split; [header_field|].
  split; [apply flag_QR_set|].
  split; [apply flag_Opcode_kept|].
  split; [apply flag_AA_kept|].
  split; [apply flag_TC_kept|].
  split; [apply flag_RD_kept|].
  split; [apply flag_RA_kept|].
  split; [apply flag_RCODE_kept|].
  split; [change 1 with (uint16_be x00 x01); header_field|].
  repeat split; header_field.
Qed.

Lemma response_header_copied_witness :
  33 <= len codecrafters_query
  /\ exists r id qflags rflags ancount nscount arcount,
    createResponse codecrafters_query = Return r
    /\ header_id codecrafters_query = Return id /\ header_id r = Return id
    /\ header_flags codecrafters_query = Return qflags
    /\ header_flags r = Return rflags
    /\ flag_QR rflags = true
    /\ flag_Opcode rflags = flag_Opcode qflags
    /\ flag_AA rflags = flag_AA qflags
    /\ flag_TC rflags = flag_TC qflags
    /\ flag_RD rflags = flag_RD qflags
    /\ flag_RA rflags = flag_RA qflags
    /\ flag_RCODE rflags = flag_RCODE qflags
    /\ header_qdcount r = Return 1
    /\ header_ancount codecrafters_query = Return ancount
    /\ header_ancount r = Return ancount
    /\ header_nscount codecrafters_query = Return nscount
    /\ header_nscount r = Return nscount
    /\ header_arcount codecrafters_query = Return arcount
    /\ header_arcount r = Return arcount.
Proof.
  split; [vm_compute; discriminate|].
  apply response_header_copied. vm_compute. discriminate.
Defined.

(** ** The end-to-end example *)




(** ** Counts and sections *)

(** C3 fails as worded: the response to [query_with_ancount] announces one
    answer and ends with its question section. *)
Lemma count_invariant_fails :
  (exists r, createResponse query_with_ancount = Return r
             /\ header_ancount r = Return 1
             /\ handle_questions 1 0 r 12
                = Some (Return ([question_line 1 "localdnsters.io" 1 1], 33))
             /\ len r = 33)
  /\ ~ exists r, createResponse query_with_ancount = Return r
                 /\ count_invariant r.
Proof.
  split.
  - eexists. repeat split; vm_compute; reflexivity.
  - intros (r & Hr & qd & an & out & e & Hqd & Han & Hq & _ & Hroom).
    vm_compute in Hr. injection Hr as <-.
    vm_compute in Hqd. injection Hqd as <-.
    vm_compute in Han. injection Han as <-.
    vm_compute in Hq. injection Hq as _ <-.
    vm_compute in Hroom. apply Hroom. reflexivity.
Qed.

(** C3, amended: for every query of at least 33 bytes the response has
    QDCOUNT 1 and exactly one question is encoded in it, from offset 12 to
    offset 33; ANCOUNT is the ANCOUNT field of the query, copied, and
    [createResponse] encodes no answer record: the response is as long as
    the query and from offset 33 on it is the bytes of the query. *)
Theorem response_counts query :
  33 <= len query ->
  exists r name ancount,
    createResponse query = Return r
    /\ header_qdcount r = Return 1
    /\ handle_questions 1 0 r 12
       = Some (Return ([question_line 1 name 1 1], 33))
    /\ header_ancount query = Return ancount
    /\ header_ancount r = Return ancount
    /\ len r = len query
    /\ drop 33 r = drop 33 query.
Proof.
  intros H.
  destruct (long_query query H)
    as (b0 & b1 & b2 & b3 & b4 & b5 & b6 & b7 & b8 & b9 & b10 & b11 & b12
        & b13 & b14 & b15 & b16 & b17 & b18 & b19 & b20 & b21 & b22 & b23
        & b24 & b25 & b26 & b27 & b28 & b29 & b30 & b31 & b32 & rest & ->).
  rewrite createResponse_cons.
  eexists. exists (response_name b21 b22 b23 b24), (uint16_be b6 b7).
  split; [reflexivity|].
  split; [change 1 with (uint16_be x00 x01); header_field|].
  split.
  { cbn [handle_questions]. rewrite response_question. reflexivity. }
  split; [header_field|]. split; [header_field|].
  split; [unfold len; cbn [length response_head app]|]; reflexivity.
Qed.

Lemma response_counts_witness :
  33 <= len query_with_ancount
  /\ exists r name ancount,
    createResponse query_with_ancount = Return r
    /\ header_qdcount r = Return 1
    /\ handle_questions 1 0 r 12
       = Some (Return ([question_line 1 name 1 1], 33))
    /\ header_ancount query_with_ancount = Return ancount
    /\ header_ancount r = Return ancount
    /\ len r = len query_with_ancount
    /\ drop 33 r = drop 33 query_with_ancount.
Proof.
  split; [vm_compute; discriminate|].
  apply response_counts. vm_compute. discriminate.
Defined.

(** ** The question section is not an echo *)




(** ** Long labels and pointer bytes *)

Lemma parseDomainName_short_label prefix done b tail :
  Forall label_fits done ->
  Z_of_byte b <> 0 -> len tail < Z_of_byte b ->
  len prefix + len (encode_labels done) + 256 <= int_max ->
  parseDomainName (prefix ++ encode_labels done ++ b :: tail) (len prefix)
  = Some (Return (Err "incomplete label")).
Proof.
  intros Hfit Hb Htail Hmax.
  pose proof (len_nonneg prefix) as Hnp.
  pose proof (len_nonneg tail) as Hnt.
  pose proof (len_nonneg (encode_labels done)) as Hnd.
  unfold parseDomainName. rewrite !len_app, len_cons, Z.geb_leb.
  destruct (_ <=? len prefix) eqn:E; [apply Z.leb_le in E; lia|clear E].
  apply (parse_loop_mono _ _ (length done + 1)).
  2:{ pose proof (length_labels_le done Hfit). rewrite !length_app. cbn. lia. }
  replace 0 with (len prefix - len prefix) by lia.
  rewrite parse_loop_labels by (assumption || lia).
  cbn [parse_loop]. rewrite loop_body_next_step by (cbn [pos bytesRead]; lia).
  rewrite app_assoc, <- len_app.
  rewrite next_step_cut by assumption. reflexivity.
Qed.

(** C6 fails as worded: the length byte at offset 12 of
    [long_label_message] is 64, and the name and the question decode. *)
Lemma long_label_not_rejected :
  (byte_b ← index long_label_message 12; Return (Z_of_byte byte_b)) = Return 64
  /\ ~ fails (parseDomainName long_label_message 12)
  /\ ~ fails (parseQuestion long_label_message 12).
Proof.
  split; [reflexivity|].
  split; intros [msg H]; vm_compute in H; discriminate.
Qed.

(** C6, amended: the name decoder does not reject a length byte above 63
    and has no error for it.  A name in wire form with labels of up to 255
    bytes, one of them longer than 63, decodes to its dotted form; a
    length byte above 63 with fewer bytes behind it than it announces
    makes decoding fail with "incomplete label". *)
Theorem long_labels_decoded prefix :
  (forall labels rest,
     Forall label_fits labels ->
     Exists (fun label => 63 < len label) labels ->
     len prefix + len (encode_name labels) + 255 <= int_max ->
     parseDomainName (prefix ++ encode_name labels ++ rest) (len prefix)
     = Some (Return (Ok (dotted labels, len (encode_name labels)))))
  /\ (forall done b tail,
        Forall label_fits done ->
        63 < Z_of_byte b -> len tail < Z_of_byte b ->
        len prefix + len (encode_labels done) + 256 <= int_max ->
        parseDomainName (prefix ++ encode_labels done ++ b :: tail) (len prefix)
        = Some (Return (Err "incomplete label"))).
Proof.
  split.
  - intros labels rest Hfit _ Hmax. apply parseDomainName_wire; assumption.
  - intros done b tail Hfit Hb Htail Hmax.
    apply parseDomainName_short_label; try assumption. lia.
Qed.

Lemma long_labels_decoded_witness :
  let prefix := [x12; x34; x01; x00; x00; x01; x00; x00; x00; x00; x00; x00] in
  let labels := [replicate 64 "a"%byte; bytes "com"] in
  parseDomainName (prefix ++ encode_name labels ++ [x00; x01; x00; x01])
    (len prefix)
  = Some (Return (Ok (dotted labels, len (encode_name labels))))
  /\ parseDomainName (prefix ++ encode_labels [bytes "www"] ++ x40 :: bytes "short")
       (len prefix)
     = Some (Return (Err "incomplete label")).
Proof.
  intros prefix labels.
  destruct (long_labels_decoded prefix) as [Hlong Hshort].
  split.
  - apply Hlong.
    + repeat constructor; vm_compute; discriminate.
    + apply Exists_cons_hd. vm_compute. reflexivity.
    + vm_compute. discriminate.
  - apply Hshort.
    + repeat constructor; vm_compute; discriminate.
    + vm_compute. reflexivity.
    + vm_compute. reflexivity.
    + vm_compute. discriminate.
Defined.

(** C7 fails as worded: the pointer at offset 12 of [pointer_message]
    points to its own offset, and decoding succeeds: the byte 0xC0 is read
    as the length of a label of 192 bytes. *)
Lemma pointer_not_rejected :
  (b1 ← index pointer_message 12; b2 ← index pointer_message 13;
   Return (Z.land (Z_of_byte b1) 192, pointer_target b1 b2))
  = Return (192, 12)
  /\ ~ fails (parseDomainName pointer_message 12)
  /\ exists name,
       parseDomainName pointer_message 12 = Some (Return (Ok (name, 194))).
Proof.
  split; [reflexivity|].
  split.
  - intros [msg H]. vm_compute in H. discriminate.
  - eexists. vm_compute. reflexivity.
Qed.

Lemma pointer_byte_range b :
  Z.land (Z_of_byte b) 192 = 192 -> 192 <= Z_of_byte b <= 255.
Proof.
  intros H. split; [|apply Z_of_byte_range].
  destruct b; vm_compute in H; try discriminate H; vm_compute; discriminate.
Qed.

(** C7, amended: the name decoder knows no compression pointers.  A byte
    with top two bits 11 is read as a label length of 192 to 255: when
    that many bytes follow in the buffer they are taken as a label and
    reading goes on behind them, otherwise decoding fails with "incomplete
    label"; no target offset is computed.  From every non-negative offset
    the decoder returns a name or an error: it does not loop and it does
    not read outside the buffer. *)
Theorem pointer_bytes_are_lengths packet :
  no_wrap packet ->
  (forall s b,
     0 <= pos s -> 0 <= bytesRead s <= pos s ->
     packet !! Z.to_nat (pos s) = Some b ->
     Z.land (Z_of_byte b) 192 = 192 ->
     loop_body packet s
     = Return
         (if len packet <? pos s + 1 + Z_of_byte b
          then Fail "incomplete label"
          else Continue
                 (LoopState (pos s + 1 + Z_of_byte b)
                    (join1 (domain s)
                       (take (Z.to_nat (Z_of_byte b))
                          (drop (Z.to_nat (pos s + 1)) packet)))
                    (bytesRead s + 1 + Z_of_byte b))))
  /\ (forall offset,
        0 <= offset ->
        exists r, parseDomainName packet offset = Some (Return r)
                  /\ name_result_ok packet offset r).
Proof.
  intros Hw. split.
  - intros s b Hpos Hbr Hb Hptr.
    apply pointer_byte_range in Hptr.
    pose proof (lookup_lt_Some _ _ _ Hb) as Hlt.
    unfold no_wrap in Hw.
    rewrite loop_body_next_step by (unfold len in *; lia).
    unfold next_step. rewrite Hb. change (default x00 (Some b)) with b.
    destruct (len packet <=? pos s) eqn:E;
      [apply Z.leb_le in E; unfold len in *; lia|].
    destruct (Z_of_byte b =? 0) eqn:E0; [apply Z.eqb_eq in E0; lia|].
    reflexivity.
  - intros offset Hoff. apply parseDomainName_safe; assumption.
Qed.

Lemma pointer_bytes_are_lengths_witness :
  loop_body pointer_message (LoopState 12 "" 0)
  = Return (Continue (LoopState 205 (string_of_list_byte
                                       (x0c :: replicate 191 "a"%byte)) 193))
  /\ exists r, parseDomainName pointer_message 12 = Some (Return r)
               /\ name_result_ok pointer_message 12 r.
Proof.
  assert (no_wrap pointer_message) as Hw by (vm_compute; discriminate).
  destruct (pointer_bytes_are_lengths pointer_message Hw) as [Hstep Hsafe].
  split.
  - rewrite (Hstep (LoopState 12 "" 0) xc0).
    + vm_compute. reflexivity.
    + vm_compute. discriminate.
    + vm_compute. split; discriminate.
    + vm_compute. reflexivity.
    + vm_compute. reflexivity.
  - apply Hsafe. lia.
Defined.

(** ** Truncation safety and termination *)

Lemma wf_label_fits label : wf_label label -> label_fits label.
Proof. unfold wf_label, label_fits. lia. Qed.

(** C8: on every buffer (of a length below the [int] range, as [no_wrap]
    has it) and from every non-negative offset, [parseDomainName] and
    [parseQuestion] return: a result that lies inside the buffer, or one
    of the four errors for a buffer that ends too early.  Neither panics,
    so no index outside the buffer is read.  A well-formed question in
    wire form that is cut anywhere before its end makes [parseQuestion]
    fail with such an error. *)
Theorem parsers_stay_in_bounds :
  (forall packet offset,
     no_wrap packet -> 0 <= offset ->
     (exists r, parseDomainName packet offset = Some (Return r)
                /\ name_result_ok packet offset r)
     /\ (exists r, parseQuestion packet offset = Some (Return r)
                   /\ question_result_ok packet offset r))
  /\ (forall prefix labels qtype qclass n,
        Forall wf_label labels ->
        no_wrap (prefix ++ encode_question labels qtype qclass) ->
        (n < length (encode_question labels qtype qclass))%nat ->
        exists msg,
          parseQuestion (prefix ++ take n (encode_question labels qtype qclass))
            (len prefix)
          = Some (Return (Err msg))
          /\ truncated_input msg).
Proof.
  split.
  - intros packet offset Hw Hoff. split.
    + apply parseDomainName_safe; assumption.
    + apply parseQuestion_safe; assumption.
  - intros prefix labels qtype qclass n Hwf Hw Hn.
    apply parseQuestion_truncated; try assumption.
    eapply Forall_impl; [exact Hwf|]. intros l. apply wf_label_fits.
Qed.

Lemma parsers_stay_in_bounds_witness :
  ((exists r, parseDomainName codecrafters_query 12 = Some (Return r)
              /\ name_result_ok codecrafters_query 12 r)
   /\ (exists r, parseQuestion codecrafters_query 12 = Some (Return r)
                 /\ question_result_ok codecrafters_query 12 r))
  /\ exists msg,
       parseQuestion
         (take 12 codecrafters_query
          ++ take 20 (encode_question [bytes "codecrafters"; bytes "io"] 1 1))
         (len (take 12 codecrafters_query))
       = Some (Return (Err msg))
       /\ truncated_input msg.
Proof.
  destruct parsers_stay_in_bounds as [Hsafe Hcut].
  split.
  - apply Hsafe; vm_compute; discriminate.
  - apply Hcut.
    + repeat constructor; vm_compute; discriminate.
    + vm_compute. discriminate.
    + vm_compute. lia.
Defined.

(** C9 fails as worded: at the offset -1 the loop neither returns an
    error nor reaches a zero-length label; its first pass panics. *)
Lemma parseDomainName_negative_offset_no_result :
  parseDomainName codecrafters_query (-1)
  = Some (Panic (index_out_of_range (-1) 33))
  /\ ~ exists res, parseDomainName codecrafters_query (-1) = Some (Return res).
Proof.
  split; [vm_compute; reflexivity|].
  intros [res H]. vm_compute in H. discriminate.
Qed.

(** C9, amended: the loop of [parseDomainName] terminates on every packet
    (of a length that is an [int]) and at every offset.  A pass that does
    not leave the loop starts inside the packet and moves the read
    position forward, not past the end of the packet, so after at most
    [len packet + 1] passes the loop is over, and no larger number of
    passes changes the result.  At every non-negative offset (on a packet
    on which no [int] wraps around) the loop is over because it returns
    one of the four errors or because it has reached a zero-length label:
    then the last byte read is the zero byte and the bytes read lie in
    the packet. *)
Theorem parseDomainName_terminates packet offset :
  len packet <= int_max ->
  (forall s s',
     loop_body packet s = Return (Continue s') ->
     0 <= pos s /\ pos s < pos s' <= len packet)
  /\ (exists r, parseDomainName packet offset = Some r)
  /\ (forall fuel r,
        offset < len packet ->
        parseDomainName packet offset = Some r ->
        (length packet < fuel)%nat ->
        parse_loop fuel packet (LoopState offset "" 0) = Some r)
  /\ (no_wrap packet -> 0 <= offset ->
      exists res,
        parseDomainName packet offset = Some (Return res)
        /\ match res with
           | Ok (_, n) =>
               0 < n /\ offset + n <= len packet
               /\ packet !! Z.to_nat (offset + n - 1) = Some x00
           | Err msg => truncated_input msg
           end).
Proof.
  intros Hlen. split; [|split; [|split]].
  - intros s s'. apply loop_body_advances. assumption.
  - unfold parseDomainName. destruct (offset >=? len packet).
    + eexists. reflexivity.
    + apply parse_loop_returns; [assumption|]. cbn [pos]. unfold len in *. lia.
  - intros fuel r Hoff Hr Hfuel. unfold parseDomainName in Hr.
    rewrite Z.geb_leb in Hr.
    destruct (len packet <=? offset) eqn:E; [apply Z.leb_le in E; lia|].
    apply (parse_loop_mono _ _ _ _ _ Hr). lia.
  - intros Hw Hoff.
    destruct (parseDomainName_safe packet offset Hw Hoff) as (res & Hres & Hok).
    exists res. split; [exact Hres|].
    destruct res as [[d n]|msg]; exact Hok.
Qed.

Lemma parseDomainName_terminates_witness :
  (forall s s',
     loop_body codecrafters_query s = Return (Continue s') ->
     0 <= pos s /\ pos s < pos s' <= len codecrafters_query)
  /\ (exists r, parseDomainName codecrafters_query 12 = Some r)
  /\ (forall fuel r,
        12 < len codecrafters_query ->
        parseDomainName codecrafters_query 12 = Some r ->
        (length codecrafters_query < fuel)%nat ->
        parse_loop fuel codecrafters_query (LoopState 12 "" 0) = Some r)
  /\ exists res,
       parseDomainName codecrafters_query 12 = Some (Return res)
       /\ match res with
          | Ok (_, n) =>
              0 < n /\ 12 + n <= len codecrafters_query
              /\ codecrafters_query !! Z.to_nat (12 + n - 1) = Some x00
          | Err msg => truncated_input msg
          end.
Proof.
  assert (len codecrafters_query <= int_max) as Hlen
    by (vm_compute; discriminate).
  destruct (parseDomainName_terminates codecrafters_query 12 Hlen)
    as (Hadvance & Hsome & Hfuel & Hreturn).
  split; [exact Hadvance|]. split; [exact Hsome|]. split; [exact Hfuel|].
  apply Hreturn; [vm_compute; discriminate|lia].
Defined.

(** [createResponse] returns on every query of 33 bytes or more. *)
Lemma createResponse_long query :
  33 <= len query -> exists r, createResponse query = Return r.
Proof.
  intros H.
  destruct (long_query query H)
    as (b0 & b1 & b2 & b3 & b4 & b5 & b6 & b7 & b8 & b9 & b10 & b11 & b12
        & b13 & b14 & b15 & b16 & b17 & b18 & b19 & b20 & b21 & b22 & b23
        & b24 & b25 & b26 & b27 & b28 & b29 & b30 & b31 & b32 & rest & ->).
  rewrite createResponse_cons. eexists. reflexivity.
Qed.

(** * Further properties of the code *)

(** ** [createResponse] *)

(** X1: on a query of 33 bytes or more [createResponse] returns the query
    with the top bit of byte 2 set, the bytes 4 and 5 replaced by 0 and 1,
    the bytes 12 to 20 by the length byte 12 and [localdns], and the bytes
    25 to 32 by the label [io], the end of the name, QTYPE 1 and QCLASS 1;
    every other byte, the bytes 21 to 24 among them, is the byte of the
    query. *)
Theorem createResponse_layout query :
  33 <= len query -> createResponse query = Return (response_layout query).
Proof.
  intros H.
  destruct (long_query query H)
    as (b0 & b1 & b2 & b3 & b4 & b5 & b6 & b7 & b8 & b9 & b10 & b11 & b12
        & b13 & b14 & b15 & b16 & b17 & b18 & b19 & b20 & b21 & b22 & b23
        & b24 & b25 & b26 & b27 & b28 & b29 & b30 & b31 & b32 & rest & ->).
  rewrite createResponse_cons. reflexivity.
Qed.

Lemma createResponse_layout_witness :
  33 <= len codecrafters_query
  /\ createResponse codecrafters_query
     = Return (response_layout codecrafters_query).
Proof.
  split; [vm_compute; discriminate|].
  apply createResponse_layout. vm_compute. discriminate.
Defined.

(** X2: [createResponse] returns a response exactly on the queries of 33
    bytes or more; on every shorter query it panics. *)
Theorem createResponse_returns_iff query :
  (exists r, createResponse query = Return r) <-> 33 <= len query.
Proof.
  split.
  - intros [r Hr]. destruct (Z_lt_le_dec (len query) 33) as [Hshort|Hlong];
      [|exact Hlong].
    destruct (createResponse_short query Hshort) as [p Hp]. congruence.
  - apply createResponse_long.
Qed.

Lemma byte_or_x80_idempotent b : byte_or (byte_or b x80) x80 = byte_or b x80.
Proof. destruct b; reflexivity. Qed.

(** X3: [createResponse] is idempotent: a response to a query of 33 bytes
    or more, taken as a query, is answered by itself. *)
Theorem createResponse_idempotent query r :
  createResponse query = Return r -> createResponse r = Return r.
Proof.
  intros Hr.
  assert (33 <= len query) as H.
  { destruct (Z_lt_le_dec (len query) 33) as [Hshort|Hlong]; [|exact Hlong].
    destruct (createResponse_short query Hshort) as [p Hp]. congruence. }
  destruct (long_query query H)
    as (b0 & b1 & b2 & b3 & b4 & b5 & b6 & b7 & b8 & b9 & b10 & b11 & b12
        & b13 & b14 & b15 & b16 & b17 & b18 & b19 & b20 & b21 & b22 & b23
        & b24 & b25 & b26 & b27 & b28 & b29 & b30 & b31 & b32 & rest & ->).
  rewrite createResponse_cons in Hr. injection Hr as <-.
  unfold response_head. cbn [bytes list_byte_of_string app].
  change (list_byte_of_string "localdns")
    with ["l"; "o"; "c"; "a"; "l"; "d"; "n"; "s"]%byte.
  change (list_byte_of_string "io") with ["i"; "o"]%byte.
  cbn [app].
  match goal with
  | |- createResponse (?a0 :: ?a1 :: ?a2 :: ?l) = _ =>
      change (a0 :: a1 :: a2 :: l)
        with ([a0; a1; a2; b3; x00; x01; b6; b7; b8; b9; b10; b11; x0c;
               "l"; "o"; "c"; "a"; "l"; "d"; "n"; "s"; b21; b22; b23; b24;
               x02; "i"; "o"; x00; x00; x01; x00; x01]%byte ++ rest)
  end.
  rewrite createResponse_cons. unfold response_head.
  rewrite byte_or_x80_idempotent. reflexivity.
Qed.

Lemma createResponse_idempotent_witness :
  exists r, createResponse codecrafters_query = Return r
            /\ createResponse r = Return r.
Proof.
  eexists. split; [vm_compute; reflexivity|].
  apply (createResponse_idempotent codecrafters_query). vm_compute. reflexivity.
Defined.

(** ** The parsers at negative offsets *)

(** X4: started at a negative offset, [parseDomainName] and
    [parseQuestion] panic: the offset passes the check against the length
    of the packet and is used as an index. *)
Theorem parsers_panic_on_negative_offset packet offset :
  offset < 0 ->
  parseDomainName packet offset
  = Some (Panic (index_out_of_range offset (len packet)))
  /\ parseQuestion packet offset
     = Some (Panic (index_out_of_range offset (len packet))).
Proof.
  intros Hneg. pose proof (len_nonneg packet) as Hlen.
  assert (parseDomainName packet offset
          = Some (Panic (index_out_of_range offset (len packet)))) as Hname.
  { unfold parseDomainName. rewrite Z.geb_leb.
    destruct (len packet <=? offset) eqn:E; [apply Z.leb_le in E; lia|].
    cbn [parse_loop]. unfold loop_body. cbn [pos].
    rewrite Z.geb_leb, E, index_panic by lia. reflexivity. }
  split; [exact Hname|].
  unfold parseQuestion. rewrite Hname. reflexivity.
Qed.

Lemma parsers_panic_on_negative_offset_witness :
  parseDomainName codecrafters_query (-1)
  = Some (Panic (index_out_of_range (-1) (len codecrafters_query)))
  /\ parseQuestion codecrafters_query (-1)
     = Some (Panic (index_out_of_range (-1) (len codecrafters_query))).
Proof. apply parsers_panic_on_negative_offset. lia. Defined.

(** ** What a successful decoding has read *)

Lemma encode_name_cons label labels :
  encode_name (label :: labels) = encode_label label ++ encode_name labels.
Proof. unfold encode_name. rewrite encode_labels_cons, app_assoc. reflexivity. Qed.

Lemma parse_loop_inv packet offset : forall fuel s d n,
  no_wrap packet ->
  0 <= offset <= pos s -> pos s <= len packet ->
  bytesRead s = pos s - offset ->
  parse_loop fuel packet s = Some (Return (Ok (d, n))) ->
  exists labels,
    Forall label_fits labels
    /\ d = join_labels (domain s) labels
    /\ n = bytesRead s + len (encode_name labels)
    /\ take (length (encode_name labels)) (drop (Z.to_nat (pos s)) packet)
       = encode_name labels.
Proof.
  unfold no_wrap.
  induction fuel as [|fuel IH]; intros s d n Hw Hoff Hpos Hbr Hrun;
    [discriminate|].
  cbn [parse_loop] in Hrun. rewrite loop_body_next_step in Hrun by lia.
  unfold next_step in Hrun.
  destruct (len packet <=? pos s) eqn:E; [discriminate|].
  apply Z.leb_gt in E.
  destruct (index_in_range packet (pos s)) as (b & Hlook & _); [lia|].
  rewrite Hlook in Hrun. change (default x00 (Some b)) with b in Hrun.
  pose proof (Z_of_byte_range b) as Hb.
  pose proof (drop_S _ _ _ Hlook) as Hdrop.
  destruct (Z_of_byte b =? 0) eqn:E0.
  - apply Z.eqb_eq in E0. injection Hrun as <- <-.
    assert (b = x00) as -> by (rewrite <- (byte_of_Z_of_byte b), E0; reflexivity).
    exists []. split; [constructor|]. split; [reflexivity|].
    split; [reflexivity|]. rewrite Hdrop. reflexivity.
  - apply Z.eqb_neq in E0.
    destruct (len packet <? pos s + 1 + Z_of_byte b) eqn:E1; [discriminate|].
    apply Z.ltb_ge in E1.
    set (label := take (Z.to_nat (Z_of_byte b)) (drop (Z.to_nat (pos s + 1)) packet))
      in *.
    assert (len label = Z_of_byte b) as Hlabel.
    { unfold label, len. rewrite length_take, length_drop. unfold len in *. lia. }
    apply IH in Hrun; cbn [pos bytesRead domain] in *; try lia.
    destruct Hrun as (labels & Hfit & -> & -> & Htake).
    exists (label :: labels).
    split; [constructor; [unfold label_fits; lia|exact Hfit]|].
    split; [reflexivity|].
    rewrite encode_name_cons, len_app, len_encode_label.
    split; [lia|].
    rewrite Hdrop. unfold encode_label. rewrite Hlabel, byte_of_Z_of_byte.
    cbn [app length take]. f_equal. rewrite length_app.
    replace (S (Z.to_nat (pos s))) with (Z.to_nat (pos s + 1)) by lia.
    rewrite <- take_take_drop. f_equal.
    + replace (length label) with (Z.to_nat (Z_of_byte b))
        by (unfold len in Hlabel; lia).
      reflexivity.
    + rewrite drop_drop.
      replace (Z.to_nat (pos s + 1) + length label)%nat
        with (Z.to_nat (pos s + 1 + Z_of_byte b)) by (unfold len in Hlabel; lia).
      exact Htake.
Qed.

Lemma parseDomainName_inv packet offset d n :
  no_wrap packet -> 0 <= offset ->
  parseDomainName packet offset = Some (Return (Ok (d, n))) ->
  exists labels,
    Forall label_fits labels
    /\ d = dotted labels
    /\ n = len (encode_name labels)
    /\ take (length (encode_name labels)) (drop (Z.to_nat offset) packet)
       = encode_name labels.
Proof.
  intros Hw Hoff. unfold parseDomainName. rewrite Z.geb_leb.
  destruct (len packet <=? offset) eqn:E; [discriminate|].
  apply Z.leb_gt in E. intros Hrun.
  apply (parse_loop_inv packet offset) in Hrun; cbn [pos bytesRead domain];
    try assumption; try lia.
  destruct Hrun as (labels & Hfit & -> & -> & Htake).
  cbn [pos bytesRead domain] in *.
  exists labels. split; [exact Hfit|].
  split; [apply join_labels_empty; exact Hfit|].
  split; [lia|exact Htake].
Qed.

(** X5: when [parseDomainName] succeeds with the name [d] and [n] bytes
    read, the [n] bytes from the offset on are the wire form of a name:
    labels of 1 to 255 bytes behind their length bytes and a zero byte at
    the end, and [d] is these labels joined by dots. *)
Theorem parseDomainName_reads_wire_name packet offset d n :
  no_wrap packet -> 0 <= offset ->
  parseDomainName packet offset = Some (Return (Ok (d, n))) ->
  exists labels,
    Forall label_fits labels
    /\ d = dotted labels
    /\ take (Z.to_nat n) (drop (Z.to_nat offset) packet) = encode_name labels
    /\ n = len (encode_name labels).
Proof.
  intros Hw Hoff Hrun.
  destruct (parseDomainName_inv packet offset d n Hw Hoff Hrun)
    as (labels & Hfit & Hd & Hn & Htake).
  exists labels. split; [exact Hfit|]. split; [exact Hd|].
  split; [|exact Hn].
  rewrite Hn, to_nat_len. exact Htake.
Qed.

Lemma parseDomainName_reads_wire_name_witness :
  exists labels,
    Forall label_fits labels
    /\ "codecrafters.io"%string = dotted labels
    /\ take (Z.to_nat 17) (drop (Z.to_nat 12) codecrafters_query)
       = encode_name labels
    /\ 17 = len (encode_name labels).
Proof.
  apply (parseDomainName_reads_wire_name codecrafters_query 12).
  - vm_compute. discriminate.
  - lia.
  - vm_compute. reflexivity.
Defined.

(** X6: a successful decoding depends on the bytes it has read and on
    nothing else: the [n] bytes read, put behind any prefix and in front
    of any other bytes, decode to the same name and the same count. *)
Theorem parseDomainName_local packet offset d n prefix rest :
  no_wrap packet -> 0 <= offset ->
  parseDomainName packet offset = Some (Return (Ok (d, n))) ->
  len prefix + n + 255 <= int_max ->
  parseDomainName
    (prefix ++ take (Z.to_nat n) (drop (Z.to_nat offset) packet) ++ rest)
    (len prefix)
  = Some (Return (Ok (d, n))).
Proof.
  intros Hw Hoff Hrun Hmax.
  destruct (parseDomainName_inv packet offset d n Hw Hoff Hrun)
    as (labels & Hfit & -> & -> & Htake).
  rewrite to_nat_len, Htake.
  apply parseDomainName_wire; assumption.
Qed.

Lemma parseDomainName_local_witness :
  parseDomainName
    ([x00; x00] ++ take (Z.to_nat 17) (drop (Z.to_nat 12) codecrafters_query)
     ++ [xff])
    (len [x00; x00])
  = Some (Return (Ok ("codecrafters.io"%string, 17))).
Proof.
  apply parseDomainName_local.
  - vm_compute. discriminate.
  - lia.
  - vm_compute. reflexivity.
  - vm_compute. discriminate.
Defined.

(** ** Names and the bytes they take *)

Lemma string_length_app (a b : string) :
  String.length (a ++ b) = (String.length a + String.length b)%nat.
Proof. induction a as [|x a IH]; cbn; [reflexivity|]. rewrite IH. reflexivity. Qed.

Lemma string_of_list_byte_app (a b : list byte) :
  string_of_list_byte (a ++ b)
  = (string_of_list_byte a ++ string_of_list_byte b)%string.
Proof.
  induction a as [|x a IH]; [reflexivity|].
  change (string_of_list_byte ((x :: a) ++ b))
    with (String (Ascii.ascii_of_byte x) (string_of_list_byte (a ++ b))).
  rewrite IH. reflexivity.
Qed.

Lemma string_length_of_bytes (a : list byte) :
  String.length (string_of_list_byte a) = length a.
Proof.
  induction a as [|x a IH]; [reflexivity|].
  change (string_of_list_byte (x :: a))
    with (String (Ascii.ascii_of_byte x) (string_of_list_byte a)).
  cbn [String.length length]. rewrite IH. reflexivity.
Qed.

Lemma dotted_cons_cons l l' ls :
  dotted (l :: l' :: ls)
  = (string_of_list_byte l ++ "." ++ dotted (l' :: ls))%string.
Proof. reflexivity. Qed.

Lemma dotted_length labels : forall label,
  Forall label_fits (label :: labels) ->
  dotted (label :: labels) <> ""%string
  /\ Z.of_nat (String.length (dotted (label :: labels))) + 2
     = len (encode_name (label :: labels)).
Proof.
  induction labels as [|l' ls IH]; intros l Hfit;
    inversion Hfit as [|? ? Hl Hls]; subst.
  - split; [apply string_of_label_nonempty; exact Hl|].
    change (dotted [l]) with (string_of_list_byte l).
    rewrite string_length_of_bytes, encode_name_cons, len_app, len_encode_label.
    unfold len. cbn. lia.
  - destruct (IH l' Hls) as [_ Hlen].
    rewrite dotted_cons_cons. split.
    + apply string_of_label_nonempty in Hl.
      destruct (string_of_list_byte l); [congruence|discriminate].
    + rewrite !string_length_app, string_length_of_bytes.
      rewrite (encode_name_cons l), len_app, len_encode_label, <- Hlen.
      unfold len. cbn [String.length]. lia.
Qed.

(** X7: the two results of a successful [parseDomainName] fit together:
    the empty name has taken one byte, and any other name has taken two
    bytes more than it has characters. *)
Theorem parseDomainName_bytes_of_name packet offset d n :
  no_wrap packet -> 0 <= offset ->
  parseDomainName packet offset = Some (Return (Ok (d, n))) ->
  (d = ""%string /\ n = 1)
  \/ (d <> ""%string /\ n = Z.of_nat (String.length d) + 2).
Proof.
  intros Hw Hoff Hrun.
  destruct (parseDomainName_inv packet offset d n Hw Hoff Hrun)
    as (labels & Hfit & -> & -> & _).
  destruct labels as [|l ls].
  - left. split; reflexivity.
  - right. destruct (dotted_length ls l Hfit) as [Hne Hlen].
    split; [exact Hne|lia].
Qed.

Lemma parseDomainName_bytes_of_name_witness :
  ("codecrafters.io"%string = ""%string /\ 17 = 1)
  \/ ("codecrafters.io"%string <> ""%string
      /\ 17 = Z.of_nat (String.length "codecrafters.io") + 2).
Proof.
  apply (parseDomainName_bytes_of_name codecrafters_query 12).
  - vm_compute. discriminate.
  - lia.
  - vm_compute. reflexivity.
Defined.

(** X8: the name that [parseDomainName] returns does not tell a dot
    inside a label from the end of a label: the one label [l1.l2] and
    the two labels [l1] and [l2] are different bytes on the wire, and
    they decode to the same name with the same number of bytes read. *)
Theorem parseDomainName_dot_in_label prefix l1 l2 rest :
  label_fits l1 -> label_fits l2 -> label_fits (l1 ++ bytes "." ++ l2) ->
  len prefix + len l1 + len l2 + 258 <= int_max ->
  encode_name [l1 ++ bytes "." ++ l2] <> encode_name [l1; l2]
  /\ parseDomainName (prefix ++ encode_name [l1 ++ bytes "." ++ l2] ++ rest)
       (len prefix)
     = Some (Return (Ok (dotted [l1; l2], len l1 + len l2 + 3)))
  /\ parseDomainName (prefix ++ encode_name [l1; l2] ++ rest) (len prefix)
     = Some (Return (Ok (dotted [l1; l2], len l1 + len l2 + 3))).
Proof.
  intros H1 H2 H12 Hmax.
  assert (len (l1 ++ bytes "." ++ l2) = len l1 + 1 + len l2) as Hlen.
  { rewrite !len_app. change (len (bytes ".")) with 1. lia. }
  assert (len (encode_name [l1 ++ bytes "." ++ l2]) = len l1 + len l2 + 3) as He1.
  { rewrite encode_name_cons, len_app, len_encode_label, Hlen.
    change (len (encode_name [])) with 1. lia. }
  assert (len (encode_name [l1; l2]) = len l1 + len l2 + 3) as He2.
  { rewrite !encode_name_cons, !len_app, !len_encode_label.
    change (len (encode_name [])) with 1. lia. }
  split; [|split].
  - unfold encode_name, encode_labels, encode_label. cbn [map concat app].
    intros Heq. injection Heq as Hbyte _.
    apply (f_equal Z_of_byte) in Hbyte.
    change (l1 ++ "."%byte :: l2) with (l1 ++ bytes "." ++ l2) in Hbyte.
    unfold label_fits in *.
    rewrite !Z_of_byte_of_Z in Hbyte by lia. lia.
  - rewrite parseDomainName_wire.
    + rewrite He1. do 4 f_equal.
      change (dotted [l1 ++ bytes "." ++ l2])
        with (string_of_list_byte (l1 ++ bytes "." ++ l2)).
      rewrite !string_of_list_byte_app. reflexivity.
    + constructor; [exact H12|constructor].
    + lia.
  - rewrite parseDomainName_wire.
    + rewrite He2. reflexivity.
    + constructor; [exact H1|constructor; [exact H2|constructor]].
    + lia.
Qed.

Lemma parseDomainName_dot_in_label_witness :
  let l1 := bytes "codecrafters" in
  let l2 := bytes "io" in
  encode_name [l1 ++ bytes "." ++ l2] <> encode_name [l1; l2]
  /\ parseDomainName ([] ++ encode_name [l1 ++ bytes "." ++ l2] ++ []) (len [])
     = Some (Return (Ok (dotted [l1; l2], len l1 + len l2 + 3)))
  /\ parseDomainName ([] ++ encode_name [l1; l2] ++ []) (len [])
     = Some (Return (Ok (dotted [l1; l2], len l1 + len l2 + 3))).
Proof.
  intros l1 l2.
  apply parseDomainName_dot_in_label; vm_compute;
    first [discriminate | split; discriminate].
Defined.

(** ** Questions: decoding what the wire form holds *)

Lemma Z_of_byte_of_Z_mod z : Z_of_byte (byte_of_Z z) = z mod 256.
Proof.
  pose proof (Z.mod_pos_bound z 256 ltac:(lia)) as H.
  unfold byte_of_Z, Z_of_byte.
  destruct (Byte.of_N (Z.to_N (z mod 256))) as [b|] eqn:E.
  - apply Byte.to_of_N in E. cbn. lia.
  - apply Byte.of_N_None_iff in E. lia.
Qed.

Lemma uint16_be_nonneg hi lo : 0 <= uint16_be hi lo.
Proof.
  unfold uint16_be. pose proof (Z_of_byte_range lo).
  apply Z.lor_nonneg. split; [|lia].
  apply Z.land_nonneg. right. lia.
Qed.

Lemma uint16_be_value hi lo :
  uint16_be hi lo = Z_of_byte hi * 256 + Z_of_byte lo.
Proof.
  unfold uint16_be.
  pose proof (Z_of_byte_range hi) as Hhi.
  pose proof (Z_of_byte_range lo) as Hlo.
  assert (Z.shiftl (Z_of_byte hi) 8 = Z_of_byte hi * 256) as Hshift
    by (rewrite Z.shiftl_mul_pow2 by lia; reflexivity).
  assert (Z.land (Z.shiftl (Z_of_byte hi) 8) 65535 = Z.shiftl (Z_of_byte hi) 8)
    as ->.
  { change 65535 with (Z.ones 16). rewrite Z.land_ones by lia.
    apply Z.mod_small. rewrite Hshift. change (2 ^ 16) with 65536. lia. }
  assert (Z.land (Z.shiftl (Z_of_byte hi) 8) (Z_of_byte lo) = 0) as Hdisjoint.
  { apply Z.bits_inj'. intros n Hn.
    rewrite Z.land_spec, Z.bits_0.
    destruct (Z.lt_ge_cases n 8) as [Hlow|Hhigh].
    - rewrite Z.shiftl_spec_low by assumption. reflexivity.
    - rewrite byte_testbit_high by assumption. apply andb_false_r. }
  rewrite <- Z.lxor_lor, <- Z.add_nocarry_lxor by exact Hdisjoint.
  rewrite Hshift. reflexivity.
Qed.

Lemma uint16_be_encode v :
  0 <= v < 65536 ->
  uint16_be (byte_of_Z (Z.shiftr v 8)) (byte_of_Z v) = v.
Proof.
  intros Hv. unfold uint16_be. rewrite !Z_of_byte_of_Z_mod.
  rewrite Z.shiftr_div_pow2 by lia. change (2 ^ 8) with 256.
  assert ((v / 256) mod 256 = v / 256) as ->
    by (apply Z.mod_small; Z.to_euclidean_division_equations; lia).
  assert (Z.shiftl (v / 256) 8 = v / 256 * 256) as Hshift
    by (rewrite Z.shiftl_mul_pow2 by lia; reflexivity).
  assert (Z.land (Z.shiftl (v / 256) 8) 65535 = Z.shiftl (v / 256) 8) as ->.
  { change 65535 with (Z.ones 16). rewrite Z.land_ones by lia.
    apply Z.mod_small. rewrite Hshift.
    change (2 ^ 16) with 65536. Z.to_euclidean_division_equations. lia. }
  assert (Z.land (Z.shiftl (v / 256) 8) (v mod 256) = 0) as Hdisjoint.
  { apply Z.bits_inj'. intros n Hn.
    rewrite Z.land_spec, Z.bits_0.
    destruct (Z.lt_ge_cases n 8) as [Hlow|Hhigh].
    - rewrite Z.shiftl_spec_low by assumption. reflexivity.
    - replace (v mod 256) with (v mod 2 ^ 8) by reflexivity.
      rewrite (Z.mod_pow2_bits_high v 8 n) by lia. apply andb_false_r. }
  rewrite <- Z.lxor_lor, <- Z.add_nocarry_lxor by exact Hdisjoint.
  rewrite Hshift. Z.to_euclidean_division_equations. lia.
Qed.

Lemma parseQuestion_encoded prefix labels qtype qclass rest :
  Forall label_fits labels ->
  0 <= qtype < 65536 -> 0 <= qclass < 65536 ->
  len prefix + len (encode_question labels qtype qclass) + 255 <= int_max ->
  parseQuestion (prefix ++ encode_question labels qtype qclass ++ rest)
    (len prefix)
  = Some (Return (Ok (dotted labels, qtype, qclass,
                      len (encode_question labels qtype qclass)))).
Proof.
  intros Hfit Ht Hc Hmax.
  assert (len (encode_question labels qtype qclass)
          = len (encode_name labels) + 4) as Hlen.
  { unfold encode_question. rewrite !len_app. reflexivity. }
  rewrite Hlen in *. unfold encode_question. rewrite <- !app_assoc.
  change (encode_u16 qtype ++ encode_u16 qclass ++ rest)
    with ([byte_of_Z (Z.shiftr qtype 8); byte_of_Z qtype;
           byte_of_Z (Z.shiftr qclass 8); byte_of_Z qclass] ++ rest).
  rewrite parseQuestion_wire by (assumption || lia).
  rewrite !uint16_be_encode by assumption. reflexivity.
Qed.

(** X9: [parseQuestion] decodes what the wire form holds: a question with
    labels of 1 to 255 bytes, a 16-bit QTYPE and a 16-bit QCLASS, laid out
    behind any prefix and in front of any other bytes, is read back with
    its dotted name, its QTYPE, its QCLASS and the number of its bytes. *)
Theorem parseQuestion_round_trip prefix q rest :
  question_fits q ->
  len prefix + len (encode_question (q_labels q) (q_type q) (q_class q)) + 255
  <= int_max ->
  parseQuestion
    (prefix ++ encode_question (q_labels q) (q_type q) (q_class q) ++ rest)
    (len prefix)
  = Some (Return (Ok (dotted (q_labels q), q_type q, q_class q,
                      len (encode_question (q_labels q) (q_type q) (q_class q))))).
Proof.
  intros (Hfit & Ht & Hc) Hmax.
  apply parseQuestion_encoded; assumption.
Qed.

Lemma parseQuestion_round_trip_witness :
  let q := Question [bytes "www"; bytes "example"; bytes "com"] 28 255 in
  parseQuestion
    ([xff] ++ encode_question (q_labels q) (q_type q) (q_class q) ++ [xff])
    (len [xff])
  = Some (Return (Ok (dotted (q_labels q), q_type q, q_class q,
                      len (encode_question (q_labels q) (q_type q) (q_class q))))).
Proof.
  intros q. apply parseQuestion_round_trip.
  - split; [|split].
    + repeat (constructor; [vm_compute; split; discriminate|]). constructor.
    + vm_compute. split; [discriminate|reflexivity].
    + vm_compute. split; [discriminate|reflexivity].
  - vm_compute. discriminate.
Defined.

(** ** [HandleDNSPacket] *)

Lemma u16_at_in_range packet i :
  0 <= i -> i + 1 < len packet -> i + 1 <= int_max ->
  exists hi lo, u16_at packet i = Return (uint16_be hi lo).
Proof.
  intros Hi Hlen Hmax. unfold u16_at.
  destruct (index_in_range packet i) as (hi & _ & ->); [lia|].
  rewrite int_add_small by (unfold int_min, int_max in *; lia).
  destruct (index_in_range packet (i + 1)) as (lo & _ & ->); [lia|].
  exists hi, lo. reflexivity.
Qed.

(** The loop over the questions stays inside the packet: it stops at the
    first question that does not decode, and every question that decodes
    has taken five bytes at least. *)
Lemma handle_questions_safe packet : forall todo i offset,
  no_wrap packet -> 0 <= offset <= len packet ->
  exists out e,
    handle_questions todo i packet offset = Some (Return (out, e))
    /\ (length out <= todo)%nat
    /\ offset <= e <= len packet
    /\ 5 * (Z.of_nat (length out) - 1) <= len packet - offset.
Proof.
  induction todo as [|todo IH]; intros i offset Hw Hoff.
  { exists [], offset. cbn. repeat split; lia. }
  cbn [handle_questions].
  destruct (parseQuestion_safe packet offset Hw) as (r & -> & Hr); [lia|].
  cbn [mbind option_bind].
  destruct r as [[[[d t] c] n]|msg]; cbn [question_result_ok] in Hr.
  2:{ exists [question_error msg], offset. cbn. repeat split; lia. }
  unfold no_wrap, int_max in Hw.
  rewrite (int_add_small offset n) by (unfold int_min, int_max; lia).
  destruct (IH (int_add i 1) (offset + n)) as (out & e & -> & Hout & He & Hroom);
    [exact Hw|lia|].
  cbn [mbind option_bind go_bind].
  eexists. exists e. split; [reflexivity|].
  cbn [length]. repeat split; lia.
Qed.

(** X10: [HandleDNSPacket] returns on every packet, whatever its QDCOUNT
    field says, and reads nothing outside the packet.  On fewer than 12
    bytes it prints that the packet is too short.  Otherwise it prints
    the ID, the flags and QDCOUNT and then at most QDCOUNT lines, one for
    each question that decodes and one for the first that does not; the
    number of these lines is bounded by the length of the packet, five
    bytes for a question. *)
Theorem HandleDNSPacket_safe packet :
  no_wrap packet ->
  exists out,
    HandleDNSPacket packet = Some (Return out)
    /\ ((len packet < 12 /\ out = [packet_too_short])
        \/ (12 <= len packet
            /\ exists id flags qdcount qlines,
                 header_id packet = Return id
                 /\ header_flags packet = Return flags
                 /\ header_qdcount packet = Return qdcount
                 /\ out = query_id id :: query_flags flags
                          :: query_questions qdcount :: qlines
                 /\ Z.of_nat (length qlines) <= qdcount
                 /\ 5 * (Z.of_nat (length qlines) - 1) <= len packet - 12)).
Proof.
  intros Hw. unfold HandleDNSPacket.
  destruct (len packet <? 12) eqn:E.
  { apply Z.ltb_lt in E. eexists. split; [reflexivity|]. left. split; [lia|reflexivity]. }
  apply Z.ltb_ge in E.
  unfold header_id, header_flags, header_qdcount.
  destruct (u16_at_in_range packet 0) as (i1 & i2 & Hid);
    [lia|lia|unfold int_max; lia|].
  destruct (u16_at_in_range packet 2) as (f1 & f2 & Hflags);
    [lia|lia|unfold int_max; lia|].
  destruct (u16_at_in_range packet 4) as (c1 & c2 & Hqd);
    [lia|lia|unfold int_max; lia|].
  rewrite Hid, Hflags, Hqd.
  destruct (handle_questions_safe packet (Z.to_nat (uint16_be c1 c2)) 0 12 Hw)
    as (qlines & e & -> & Hcount & _ & Hroom); [lia|].
  cbn [mbind option_bind go_bind].
  eexists. split; [reflexivity|]. right. split; [exact E|].
  exists (uint16_be i1 i2), (uint16_be f1 f2), (uint16_be c1 c2), qlines.
  pose proof (uint16_be_nonneg c1 c2).
  repeat split; try reflexivity; lia.
Qed.

Lemma HandleDNSPacket_safe_witness :
  exists out,
    HandleDNSPacket pointer_message = Some (Return out)
    /\ ((len pointer_message < 12 /\ out = [packet_too_short])
        \/ (12 <= len pointer_message
            /\ exists id flags qdcount qlines,
                 header_id pointer_message = Return id
                 /\ header_flags pointer_message = Return flags
                 /\ header_qdcount pointer_message = Return qdcount
                 /\ out = query_id id :: query_flags flags
                          :: query_questions qdcount :: qlines
                 /\ Z.of_nat (length qlines) <= qdcount
                 /\ 5 * (Z.of_nat (length qlines) - 1)
                    <= len pointer_message - 12)).
Proof. apply HandleDNSPacket_safe. vm_compute. discriminate. Defined.

Lemma len_encode_questions_cons q qs :
  len (encode_questions (q :: qs))
  = len (encode_question (q_labels q) (q_type q) (q_class q))
    + len (encode_questions qs).
Proof. unfold encode_questions. cbn [map concat]. apply len_app. Qed.

Lemma handle_questions_encoded rest : forall qs prefix i,
  Forall question_fits qs ->
  0 <= i -> i + Z.of_nat (length qs) <= int_max ->
  len prefix + len (encode_questions qs) + 255 <= int_max ->
  handle_questions (length qs) i (prefix ++ encode_questions qs ++ rest)
    (len prefix)
  = Some (Return (question_lines i qs, len prefix + len (encode_questions qs))).
Proof.
  induction qs as [|q qs IH]; intros prefix i Hfit Hi Himax Hmax.
  { cbn. rewrite Z.add_0_r. reflexivity. }
  inversion Hfit as [|? ? (Hlabels & Ht & Hc) Hqs]; subst.
  rewrite len_encode_questions_cons in Hmax.
  pose proof (len_nonneg prefix) as Hnp.
  pose proof (len_nonneg (encode_questions qs)) as Hnq.
  pose proof (len_nonneg (encode_question (q_labels q) (q_type q) (q_class q)))
    as Hn1.
  cbn [length handle_questions]. cbn [length] in Himax.
  unfold encode_questions at 1 2. cbn [map concat]. fold (encode_questions qs).
  rewrite <- (app_assoc (encode_question _ _ _)).
  rewrite parseQuestion_encoded by (assumption || lia).
  cbn [mbind option_bind].
  unfold int_max in *.
  rewrite (int_add_small i 1) by (unfold int_min, int_max; lia).
  rewrite int_add_small by (unfold int_min, int_max; lia).
  rewrite (app_assoc prefix), <- len_app.
  rewrite IH; try assumption; try lia.
  2:{ rewrite len_app. lia. }
  cbn [mbind option_bind go_bind question_lines].
  rewrite len_encode_questions_cons, len_app, Z.add_assoc. reflexivity.
Qed.

(** X11: [HandleDNSPacket] reads back a whole question section: on a
    packet made of any 12 header bytes whose QDCOUNT is the number of the
    questions, the questions in wire form and any bytes behind them, it
    prints the ID, the flags, QDCOUNT and every question in order, each
    with its number, its dotted name, its QTYPE and its QCLASS. *)
Theorem HandleDNSPacket_round_trip
  i1 i2 f1 f2 c1 c2 a1 a2 n1 n2 r1 r2 qs rest :
  let packet :=
    [i1; i2; f1; f2; c1; c2; a1; a2; n1; n2; r1; r2]
    ++ encode_questions qs ++ rest in
  Forall question_fits qs ->
  uint16_be c1 c2 = Z.of_nat (length qs) ->
  no_wrap packet ->
  HandleDNSPacket packet
  = Some (Return (query_id (uint16_be i1 i2) :: query_flags (uint16_be f1 f2)
                    :: query_questions (Z.of_nat (length qs))
                    :: question_lines 0 qs)).
Proof.
  intros packet Hfit Hcount Hw. unfold packet, no_wrap in *.
  set (header := [i1; i2; f1; f2; c1; c2; a1; a2; n1; n2; r1; r2]) in *.
  rewrite !len_app in Hw. change (len header) with 12 in Hw.
  pose proof (len_nonneg rest) as Hnr.
  pose proof (len_nonneg (encode_questions qs)) as Hnq.
  unfold HandleDNSPacket.
  rewrite !len_app. change (len header) with 12.
  destruct (_ <? 12) eqn:E; [apply Z.ltb_lt in E; lia|clear E].
  assert (header_id (header ++ encode_questions qs ++ rest)
          = Return (uint16_be i1 i2)) as -> by header_field.
  assert (header_flags (header ++ encode_questions qs ++ rest)
          = Return (uint16_be f1 f2)) as -> by header_field.
  assert (header_qdcount (header ++ encode_questions qs ++ rest)
          = Return (uint16_be c1 c2)) as -> by header_field.
  rewrite Hcount, Nat2Z.id.
  change 12 with (len header).
  rewrite handle_questions_encoded; try assumption; try lia.
  - reflexivity.
  - rewrite <- Hcount, uint16_be_value.
    pose proof (Z_of_byte_range c1). pose proof (Z_of_byte_range c2).
    unfold int_max. lia.
  - change (len header) with 12. lia.
Qed.

Lemma HandleDNSPacket_round_trip_witness :
  let qs := [Question [bytes "codecrafters"; bytes "io"] 1 1;
             Question [bytes "www"; bytes "example"; bytes "com"] 28 1] in
  HandleDNSPacket
    ([x12; x34; x01; x00; x00; x02; x00; x00; x00; x00; x00; x00]
     ++ encode_questions qs ++ [])
  = Some (Return (query_id (uint16_be x12 x34) :: query_flags (uint16_be x01 x00)
                    :: query_questions (Z.of_nat (length qs))
                    :: question_lines 0 qs)).
Proof.
  intros qs.
  apply (HandleDNSPacket_round_trip x12 x34 x01 x00 x00 x02 x00 x00 x00 x00
           x00 x00 qs []).
  - repeat (constructor;
            [split; [repeat (constructor; [vm_compute; split; discriminate|]);
                     constructor
                    |vm_compute; repeat split; discriminate]|]).
    constructor.
  - vm_compute. reflexivity.
  - vm_compute. discriminate.
Defined.

(** X12: what [createResponse] returns, [HandleDNSPacket] decodes: for
    every query of at least 33 bytes the response is printed as the ID of
    the query, flags with QR set, one question, and that question with
    qtype 1 and qclass 1, without an error. *)
Theorem HandleDNSPacket_of_response query :
  33 <= len query ->
  exists r id flags name,
    createResponse query = Return r
    /\ header_id query = Return id
    /\ flag_QR flags = true
    /\ HandleDNSPacket r
       = Some (Return [query_id id; query_flags flags; query_questions 1;
                       question_line 1 name 1 1]).
Proof.
  intros H.
  destruct (long_query query H)
    as (b0 & b1 & b2 & b3 & b4 & b5 & b6 & b7 & b8 & b9 & b10 & b11 & b12
        & b13 & b14 & b15 & b16 & b17 & b18 & b19 & b20 & b21 & b22 & b23
        & b24 & b25 & b26 & b27 & b28 & b29 & b30 & b31 & b32 & rest & ->).
  rewrite createResponse_cons.
  eexists. exists (uint16_be b0 b1), (uint16_be (byte_or b2 x80) b3),
    (response_name b21 b22 b23 b24).
  split; [reflexivity|]. split; [header_field|].
  split; [apply flag_QR_set|].
  unfold HandleDNSPacket.
  set (r := response_head b0 b1 b2 b3 b6 b7 b8 b9 b10 b11 b21 b22 b23 b24
            ++ rest).
  assert (len r = 33 + len rest) as Hlen.
  { unfold r. rewrite len_app. reflexivity. }
  pose proof (len_nonneg rest) as Hnr.
  destruct (len r <? 12) eqn:E; [apply Z.ltb_lt in E; lia|clear E].
  assert (header_id r = Return (uint16_be b0 b1)) as -> by header_field.
  assert (header_flags r = Return (uint16_be (byte_or b2 x80) b3)) as ->
    by header_field.
  assert (header_qdcount r = Return (uint16_be x00 x01)) as -> by header_field.
  change (Z.to_nat (uint16_be x00 x01)) with 1%nat.
  cbn [handle_questions]. unfold r. rewrite response_question.
  reflexivity.
Qed.

Lemma HandleDNSPacket_of_response_witness :
  33 <= len codecrafters_query
  /\ exists r id flags name,
       createResponse codecrafters_query = Return r
       /\ header_id codecrafters_query = Return id
       /\ flag_QR flags = true
       /\ HandleDNSPacket r
          = Some (Return [query_id id; query_flags flags; query_questions 1;
                          question_line 1 name 1 1]).
Proof.
  split; [vm_compute; discriminate|].
  apply HandleDNSPacket_of_response. vm_compute. discriminate.
Defined.

(** ** The receive loop of [main] *)

Lemma writes_app {Addr : Type} (a b : list (event Addr)) :
  writes (a ++ b) = writes a ++ writes b.
Proof.
  induction a as [|e a IH]; [reflexivity|].
  destruct e; cbn [app writes]; rewrite IH; reflexivity.
Qed.

(** One pass on a datagram that [createResponse] answers. *)
Lemma main_loop_answered {Addr : Type} data (source : Addr) write_fails net r :
  createResponse data = Return r ->
  writes (fst (main_loop (datagram data source write_fails :: net)))
  = (r, source) :: writes (fst (main_loop net))
  /\ snd (main_loop (datagram data source write_fails :: net))
     = snd (main_loop net).
Proof.
  intros Hr. cbn [main_loop]. rewrite Hr.
  destruct (main_loop net) as [events e]. cbn [fst snd app].
  split; [|reflexivity].
  cbn [writes]. rewrite writes_app. destruct write_fails; reflexivity.
Qed.

(** X13: as long as every datagram that arrives has 33 bytes or more,
    the loop of [main] does not panic, and it hands to [WriteToUDP] one
    response for each datagram that arrived before the first read error,
    in the order of arrival: the response that [createResponse] builds
    from the datagram, addressed to its source, whether or not earlier
    writes have failed. *)
Theorem main_loop_answers_all {Addr : Type} (net : list (net_pass Addr)) :
  Forall (fun dg => 33 <= len (fst dg)) (datagrams net) ->
  (forall p, snd (main_loop net) <> loop_panic p)
  /\ Forall2 (fun dg w => createResponse (fst dg) = Return (fst w)
                          /\ snd w = snd dg)
       (datagrams net) (writes (fst (main_loop net))).
Proof.
  induction net as [|[data source write_fails|] net IH]; intros Hlong.
  - split; [discriminate|constructor].
  - cbn [datagrams] in Hlong. inversion Hlong as [|? ? Hdata Hrest]; subst.
    cbn [fst] in Hdata.
    destruct (createResponse_long data Hdata) as [r Hr].
    destruct (main_loop_answered data source write_fails net r Hr) as [-> ->].
    destruct (IH Hrest) as [Hend Hwrites].
    split; [exact Hend|].
    cbn [datagrams]. constructor; [split; [exact Hr|reflexivity]|exact Hwrites].
  - split; [discriminate|constructor].
Qed.

Lemma main_loop_answers_all_witness :
  let net := [datagram codecrafters_query 1%nat true;
              datagram query_with_ancount 2%nat false;
              read_fails;
              datagram five_bytes 3%nat false] in
  (forall p, snd (main_loop net) <> loop_panic p)
  /\ Forall2 (fun dg w => createResponse (fst dg) = Return (fst w)
                           /\ snd w = snd dg)
        (datagrams net) (writes (fst (main_loop net))).
Proof.
  intros net. apply main_loop_answers_all.
  repeat constructor; vm_compute; discriminate.
Defined.

(** X14: the first datagram shorter than 33 bytes ends the loop of [main]
    with a panic.  The datagrams before it have been answered; the short
    datagram and every datagram behind it get no response. *)
Theorem main_loop_stops_at_short_datagram {Addr : Type}
  (before after : list (net_pass Addr)) data source write_fails :
  Forall long_datagram before -> len data < 33 ->
  let net := before ++ datagram data source write_fails :: after in
  exists p,
    createResponse data = Panic p
    /\ snd (main_loop net) = loop_panic p
    /\ writes (fst (main_loop net)) = writes (fst (main_loop before))
    /\ length (writes (fst (main_loop net))) = length before.
Proof.
  intros Hlong Hshort. cbv zeta.
  destruct (createResponse_short data Hshort) as [p Hp].
  exists p. split; [exact Hp|].
  induction Hlong as [|pass before Hpass _ IH].
  - cbn [app main_loop]. rewrite Hp. repeat split.
  - destruct pass as [data' source' write_fails'|]; [|destruct Hpass].
    cbn [long_datagram] in Hpass.
    destruct (createResponse_long data' Hpass) as [r Hr].
    destruct IH as (Hend & Hwrites & Hcount).
    cbn [app].
    destruct (main_loop_answered data' source' write_fails'
                (before ++ datagram data source write_fails :: after) r Hr)
      as [-> ->].
    destruct (main_loop_answered data' source' write_fails' before r Hr)
      as [-> _].
    split; [exact Hend|]. rewrite Hwrites.
    split; [reflexivity|]. cbn [length]. rewrite <- Hwrites, Hcount. reflexivity.
Qed.

Lemma main_loop_stops_at_short_datagram_witness :
  let before := [datagram codecrafters_query 1%nat false] in
  let net := before ++ datagram five_bytes 2%nat false
                       :: [datagram codecrafters_query 3%nat false] in
  exists p,
    createResponse five_bytes = Panic p
    /\ snd (main_loop net) = loop_panic p
    /\ writes (fst (main_loop net)) = writes (fst (main_loop before))
    /\ length (writes (fst (main_loop net))) = length before.
Proof.
  intros before.
  apply (main_loop_stops_at_short_datagram before
           [datagram codecrafters_query 3%nat false] five_bytes 2%nat false).
  - repeat constructor. vm_compute. discriminate.
  - vm_compute. reflexivity.
Defined.

(** ** What a decoded question has read *)

Lemma byte_of_Z_mod z : byte_of_Z (z mod 256) = byte_of_Z z.
Proof. unfold byte_of_Z. rewrite Z.mod_mod by lia. reflexivity. Qed.

Lemma encode_u16_uint16_be hi lo : encode_u16 (uint16_be hi lo) = [hi; lo].
Proof.
  unfold encode_u16. rewrite uint16_be_value.
  pose proof (Z_of_byte_range hi) as Hhi.
  pose proof (Z_of_byte_range lo) as Hlo.
  rewrite Z.shiftr_div_pow2 by lia. change (2 ^ 8) with 256.
  replace ((Z_of_byte hi * 256 + Z_of_byte lo) / 256) with (Z_of_byte hi)
    by (Z.to_euclidean_division_equations; lia).
  rewrite byte_of_Z_of_byte.
  rewrite <- (byte_of_Z_mod (Z_of_byte hi * 256 + Z_of_byte lo)).
  replace ((Z_of_byte hi * 256 + Z_of_byte lo) mod 256) with (Z_of_byte lo)
    by (Z.to_euclidean_division_equations; lia).
  rewrite byte_of_Z_of_byte. reflexivity.
Qed.

Lemma take_four (s : list byte) k a b c d :
  s !! k = Some a -> s !! S k = Some b -> s !! S (S k) = Some c ->
  s !! S (S (S k)) = Some d ->
  take 4 (drop k s) = [a; b; c; d].
Proof.
  intros Ha Hb Hc Hd.
  rewrite (drop_S _ _ _ Ha), (drop_S _ _ _ Hb), (drop_S _ _ _ Hc),
    (drop_S _ _ _ Hd).
  reflexivity.
Qed.

(** X15: when [parseQuestion] succeeds, the bytes it has read are the
    wire form of the question it returns: a name of labels of 1 to 255
    bytes, and the QTYPE and QCLASS it returns, both below 2^16, as
    big-endian 16-bit numbers.  Nothing else of the packet has a part in
    the result. *)
Theorem parseQuestion_reads_wire_question packet offset d qtype qclass n :
  no_wrap packet -> 0 <= offset ->
  parseQuestion packet offset = Some (Return (Ok (d, qtype, qclass, n))) ->
  exists labels,
    Forall label_fits labels
    /\ d = dotted labels
    /\ 0 <= qtype < 65536 /\ 0 <= qclass < 65536
    /\ take (Z.to_nat n) (drop (Z.to_nat offset) packet)
       = encode_question labels qtype qclass
    /\ n = len (encode_question labels qtype qclass).
Proof.
  intros Hw Hoff Hrun. unfold parseQuestion in Hrun.
  destruct (parseDomainName_safe packet offset Hw Hoff) as (r & Hname & Hok).
  rewrite Hname in Hrun. cbn [mbind option_bind] in Hrun.
  destruct r as [[d' m]|msg]; [|discriminate].
  cbn [name_result_ok] in Hok. destruct Hok as (Hm & Hend & _).
  destruct (parseDomainName_inv packet offset d' m Hw Hoff Hname)
    as (labels & Hfit & -> & Hmlen & Htake).
  pose proof Hw as Hw'. unfold no_wrap, int_max in Hw'.
  rewrite (int_add_small offset m) in Hrun by (unfold int_min, int_max; lia).
  rewrite (int_add_small (offset + m) 4) in Hrun
    by (unfold int_min, int_max; lia).
  rewrite (int_add_small (offset + m) 1) in Hrun
    by (unfold int_min, int_max; lia).
  rewrite (int_add_small m 2) in Hrun by (unfold int_min, int_max; lia).
  rewrite (int_add_small offset (m + 2)) in Hrun
    by (unfold int_min, int_max; lia).
  rewrite (int_add_small (offset + (m + 2)) 1) in Hrun
    by (unfold int_min, int_max; lia).
  rewrite (int_add_small (m + 2) 2) in Hrun by (unfold int_min, int_max; lia).
  rewrite Z.gtb_ltb in Hrun.
  destruct (len packet <? offset + m + 4) eqn:E; [discriminate|].
  apply Z.ltb_ge in E.
  destruct (index_in_range packet (offset + m)) as (t1 & Ht1 & Hi1); [lia|].
  destruct (index_in_range packet (offset + m + 1)) as (t2 & Ht2 & Hi2); [lia|].
  destruct (index_in_range packet (offset + (m + 2))) as (c1 & Hc1 & Hi3); [lia|].
  destruct (index_in_range packet (offset + (m + 2) + 1)) as (c2 & Hc2 & Hi4);
    [lia|].
  rewrite Hi1, Hi2, Hi3, Hi4 in Hrun. cbn [mbind go_bind] in Hrun.
  injection Hrun as <- <- <- <-.
  exists labels. split; [exact Hfit|]. split; [reflexivity|].
  pose proof (Z_of_byte_range t1). pose proof (Z_of_byte_range t2).
  pose proof (Z_of_byte_range c1). pose proof (Z_of_byte_range c2).
  split; [rewrite uint16_be_value; lia|].
  split; [rewrite uint16_be_value; lia|].
  assert (len (encode_question labels (uint16_be t1 t2) (uint16_be c1 c2))
          = m + 4) as Hlen.
  { unfold encode_question. rewrite !len_app, <- Hmlen. reflexivity. }
  split; [|lia].
  unfold encode_question. rewrite !encode_u16_uint16_be.
  replace (Z.to_nat (m + 2 + 2)) with (length (encode_name labels) + 4)%nat
    by (rewrite Hmlen; unfold len; lia).
  rewrite <- take_take_drop, Htake. f_equal.
  rewrite drop_drop.
  apply take_four.
  - rewrite <- Ht1. f_equal. rewrite Hmlen. unfold len. lia.
  - rewrite <- Ht2. f_equal. rewrite Hmlen. unfold len. lia.
  - rewrite <- Hc1. f_equal. rewrite Hmlen. unfold len. lia.
  - rewrite <- Hc2. f_equal. rewrite Hmlen. unfold len. lia.
Qed.

Lemma parseQuestion_reads_wire_question_witness :
  exists labels,
    Forall label_fits labels
    /\ "codecrafters.io"%string = dotted labels
    /\ 0 <= 1 < 65536 /\ 0 <= 1 < 65536
    /\ take (Z.to_nat 21) (drop (Z.to_nat 12) codecrafters_query)
       = encode_question labels 1 1
    /\ 21 = len (encode_question labels 1 1).
Proof.
  apply (parseQuestion_reads_wire_question codecrafters_query 12).
  - vm_compute. discriminate.
  - lia.
  - vm_compute. reflexivity.
Defined.

(** X16: [parseDomainName] decodes every name in wire form, of any number
    of labels and of any length: when the bytes of the packet from the
    offset on begin with labels of 1 to 255 bytes behind their length
    bytes and a zero byte, the result is the labels joined by dots and
    the number of these bytes.  The empty name, a single zero byte, is
    among them. *)
Theorem parseDomainName_round_trip packet offset labels rest :
  0 <= offset <= len packet ->
  drop (Z.to_nat offset) packet = encode_name labels ++ rest ->
  Forall label_fits labels ->
  offset + len (encode_name labels) + 255 <= int_max ->
  parseDomainName packet offset
  = Some (Return (Ok (dotted labels, len (encode_name labels)))).
Proof.
  intros Hoff Hdrop Hfit Hmax.
  rewrite <- (take_drop (Z.to_nat offset) packet), Hdrop.
  assert (len (take (Z.to_nat offset) packet) = offset) as Hlen.
  { unfold len in *. rewrite length_take. lia. }
  set (prefix := take (Z.to_nat offset) packet) in *.
  rewrite <- Hlen in Hmax |- *.
  apply parseDomainName_wire; [exact Hfit|exact Hmax].
Qed.

Lemma parseDomainName_round_trip_witness :
  parseDomainName codecrafters_query 12
  = Some (Return (Ok (dotted [bytes "codecrafters"; bytes "io"],
                      len (encode_name [bytes "codecrafters"; bytes "io"]))))
  /\ parseDomainName [xff; x00; xff] 1
     = Some (Return (Ok (dotted [], len (encode_name [])))).
Proof.
  split.
  - apply (parseDomainName_round_trip codecrafters_query 12 _ [x00; x01; x00; x01]).
    + vm_compute. split; discriminate.
    + vm_compute. reflexivity.
    + repeat (constructor; [vm_compute; split; discriminate|]). constructor.
    + vm_compute. discriminate.
  - apply (parseDomainName_round_trip [xff; x00; xff] 1 [] [xff]).
    + vm_compute. split; discriminate.
    + vm_compute. reflexivity.
    + constructor.
    + vm_compute. discriminate.
Defined.
